(** * Channel clone worker (clone.py): model and properties

    The per-user clone job of [clone.py] is embedded as pure functions over
    an explicit state: the in-memory [CloneWorker] object, the per-user
    files under [user_data/], the client connection, the target channel and
    the notification sink.  Everything the job awaits (page fetches, media
    and text transfers, notification deliveries, Stop requests written by
    the [stop_clone] handler while the job is suspended) is read from an
    environment record, so each run of the model is one schedule of the
    real program. *)

From Stdlib Require Import ZArith List Bool String Lia Sorted Arith PeanoNat.
From Stdlib Require Import DecimalString.
From Stdlib Require Import Ascii.
From Stdlib Require DecimalZ DecimalPos DecimalFacts.
Import ListNotations.

Open Scope Z_scope.

(** ** Data *)

(** What the platform hands back for one message: [msg.id], [msg.media],
    [msg.text] and [msg.message]. *)
Record Message := mkMessage {
  id : Z;
  media : option nat;
  text : option string;
  message : option string
}.

(** An exception, carried as the text [str(e)] gives. *)
Definition Exn := string.

(** Wall-clock readings ([datetime.now()]). *)
Definition Time := nat.

(** The status texts built by [clone_messages], one constructor per
    f-string, with the numbers the f-string interpolates. *)
Inductive Status :=
| Idle                                     (* "Idle" *)
| AlreadyRunning                           (* "Already running a clone operation" *)
| ClientInitFailed                         (* "Client initialization failed" *)
| MissingChannel                           (* "Missing source or target channel" *)
| ChannelAccessFailed (e : Exn)            (* "Channel access failed: {e}" *)
| Collecting                               (* "Collecting messages..." *)
| StoppedByUser                            (* "Stopped by user request" *)
| Collected (n : nat)                      (* "Collected {n} messages" *)
| CollectionError (e : Exn)                (* "Collection error: {e}" *)
| Ready (total : nat)                      (* "Ready to clone {total} messages" *)
| Stopped (processed total : nat)          (* "Stopped ({processed}/{total} done)" *)
| Cloning (processed total : nat)          (* "Cloning: ...% complete ({processed}/{total} messages)" *)
| ErrorOnMessage (mid : Z)                 (* "Error on message {id} (continuing)" *)
| Completed (processed total : nat)        (* "Completed: {processed}/{total} messages" *)
| StoppedEarly (processed total : nat).    (* "Stopped early: {processed}/{total}" *)

(** The JSON object written to [status_<user>.json]. *)
Record StatusData := mkStatusData {
  sd_message : Status;
  sd_timestamp : Time;
  sd_progress : nat * nat
}.

(** Lines of [error_<user>.json], as [log_error] is called in the worker. *)
Inductive ErrEntry :=
| StatusUpdateFailed (t : Time) (e : Exn)          (* "Status update failed: {e}" *)
| MessageFailed (t : Time) (mid : Z) (e : Exn).    (* "Message {id} failed: {e}" *)

(** The per-user config dict; a key that is absent is [None]. *)
Record Config := mkConfig {
  api_id : option Z;
  api_hash : option string;
  phone : option string;
  source_channel_id : option Z;
  target_channel_id : option Z
}.

(** The per-user files.  A marker file counts by its presence only.  The
    sent log is absent or holds one id per line: its only writer is the
    [f.write(f"{msg.id}\n")] of the clone loop. *)
Record Files := mkFiles {
  stop_flag : bool;
  start_flag : bool;
  sent_log : option (list Z);
  error_log : list ErrEntry;
  status_file : option StatusData;
  config : Config
}.

(** The fields of a [CloneWorker]; [client] is [None] before a client
    object exists, then [Some true] while connected. *)
Record Worker := mkWorker {
  client : option bool;
  is_cloning : bool;
  current_status : Status;
  last_update : option Time;
  progress : nat * nat
}.

(** [CloneWorker.__init__] *)
Definition new_worker : Worker :=
  {| client := None; is_cloning := false; current_status := Idle;
     last_update := None; progress := (0%nat, 0%nat) |}.

(** What reaches the target channel. *)
Inductive Delivery :=
| SentFile (file : nat) (caption : string)
| SentText (body : string).

(** The whole state a job reads and writes: the worker object, the files,
    the target channel's new messages, the notifications delivered so far as
    (chat, text, last update, progress), the number of delivery attempts and
    the offsets asked of the history request. *)
Record State := mkState {
  worker : Worker;
  files : Files;
  target : list Delivery;
  outbox : list (Z * StatusData);
  sends : nat;
  requests : list Z
}.

(** One answer of [GetHistoryRequest]. *)
Inductive FetchResult :=
| FetchOk (page : list Message)
| FetchErr (e : Exn).

(** The environment of one job.  [history] lists the answers of the
    successive history requests, each with whether a Stop request lands
    while that fetch is in flight; once the list is used up the channel has
    nothing older to give (the empty page).  [transfer i] and
    [stop_during i] speak of the i-th item of the clone loop, [notify k] of
    the k-th delivery attempt. *)
Record Env := mkEnv {
  now : Time;
  resolve : Z -> option Exn;
  history : list (FetchResult * bool);
  stop_at_ready : bool;
  transfer : nat -> option Exn;
  stop_during : nat -> bool;
  notify : nat -> option Exn
}.

(** ** Field updates *)

Definition with_worker (f : Worker -> Worker) (s : State) : State :=
  {| worker := f (worker s); files := files s; target := target s;
     outbox := outbox s; sends := sends s; requests := requests s |}.

Definition with_files (f : Files -> Files) (s : State) : State :=
  {| worker := worker s; files := f (files s); target := target s;
     outbox := outbox s; sends := sends s; requests := requests s |}.

Definition set_client (c : option bool) (w : Worker) : Worker :=
  {| client := c; is_cloning := is_cloning w;
     current_status := current_status w; last_update := last_update w;
     progress := progress w |}.

Definition set_is_cloning (b : bool) (w : Worker) : Worker :=
  {| client := client w; is_cloning := b;
     current_status := current_status w; last_update := last_update w;
     progress := progress w |}.

Definition set_status (m : Status) (t : Time) (w : Worker) : Worker :=
  {| client := client w; is_cloning := is_cloning w;
     current_status := m; last_update := Some t;
     progress := progress w |}.

Definition set_progress (p : nat * nat) (w : Worker) : Worker :=
  {| client := client w; is_cloning := is_cloning w;
     current_status := current_status w; last_update := last_update w;
     progress := p |}.

Definition set_stop_flag (b : bool) (f : Files) : Files :=
  {| stop_flag := b; start_flag := start_flag f; sent_log := sent_log f;
     error_log := error_log f; status_file := status_file f;
     config := config f |}.

Definition set_start_flag (b : bool) (f : Files) : Files :=
  {| stop_flag := stop_flag f; start_flag := b; sent_log := sent_log f;
     error_log := error_log f; status_file := status_file f;
     config := config f |}.

Definition set_status_file (d : StatusData) (f : Files) : Files :=
  {| stop_flag := stop_flag f; start_flag := start_flag f;
     sent_log := sent_log f; error_log := error_log f;
     status_file := Some d; config := config f |}.

(** [open(sent_log, "a")] then one line: the file is created when absent. *)
Definition append_sent (i : Z) (f : Files) : Files :=
  {| stop_flag := stop_flag f; start_flag := start_flag f;
     sent_log := Some (match sent_log f with
                       | Some l => l ++ [i]
                       | None => [i]
                       end);
     error_log := error_log f; status_file := status_file f;
     config := config f |}.

Definition append_error (e : ErrEntry) (f : Files) : Files :=
  {| stop_flag := stop_flag f; start_flag := start_flag f;
     sent_log := sent_log f; error_log := error_log f ++ [e];
     status_file := status_file f; config := config f |}.

Definition deliver (d : Delivery) (s : State) : State :=
  {| worker := worker s; files := files s; target := target s ++ [d];
     outbox := outbox s; sends := sends s; requests := requests s |}.

Definition record_request (o : Z) (s : State) : State :=
  {| worker := worker s; files := files s; target := target s;
     outbox := outbox s; sends := sends s; requests := requests s ++ [o] |}.

(** One delivery attempt of the bot: counted, and kept when it succeeds. *)
Definition attempt_send (ok : bool) (c : Z) (d : StatusData) (s : State) : State :=
  {| worker := worker s; files := files s; target := target s;
     outbox := if ok then outbox s ++ [(c, d)] else outbox s;
     sends := S (sends s); requests := requests s |}.

(** A Stop request: [stop_clone] writes the marker while the job is
    suspended. *)
Definition arrive_stop (req : bool) (s : State) : State :=
  if req then with_files (set_stop_flag true) s else s.

(** ** Python truthiness *)

Definition truthy_int (o : option Z) : bool :=
  match o with
  | Some z => negb (z =? 0)
  | None => false
  end.

Definition truthy_str (o : option string) : bool :=
  match o with
  | Some s => negb (String.eqb s EmptyString)
  | None => false
  end.

Definition truthy_media (o : option nat) : bool :=
  match o with
  | Some _ => true
  | None => false
  end.

(** [msg.text or msg.message] and [msg.text or msg.message or ""] *)
Definition text_or_message (m : Message) : option string :=
  if truthy_str (text m) then text m else message m.

Definition caption_of (m : Message) : string :=
  match text_or_message m with
  | Some s => s
  | None => EmptyString
  end.

(** ** Utility functions and the worker's methods *)

(** [log_error]: one more line in the error log, stamped with the clock. *)
Definition log_error (env : Env) (entry : Time -> ErrEntry) (s : State) : State :=
  with_files (append_error (entry (now env))) s.

(** [CloneWorker.update_status].  With an application and a chat id the
    snapshot file is rewritten and the text is sent to the user; a failed
    delivery is caught and logged. *)
Definition update_status (env : Env) (msg : Status) (app : bool)
    (chat_id : option Z) (s : State) : State :=
  let s1 := with_worker (set_status msg (now env)) s in
  match chat_id with
  | Some c =>
      if app && truthy_int chat_id then
        let d := {| sd_message := msg; sd_timestamp := now env;
                    sd_progress := progress (worker s1) |} in
        let s2 := with_files (set_status_file d) s1 in
        match notify env (sends s2) with
        | None => attempt_send true c d s2
        | Some e =>
            log_error env (fun t => StatusUpdateFailed t e)
                      (attempt_send false c d s2)
        end
      else s1
  | None => s1
  end.

(** [all(k in config for k in ["api_id", "api_hash", "phone"])] *)
Definition has_credentials (c : Config) : bool :=
  match api_id c, api_hash c, phone c with
  | Some _, Some _, Some _ => true
  | _, _, _ => false
  end.

(** [all(k in config for k in ["source_channel_id", "target_channel_id"])] *)
Definition has_channels (c : Config) : bool :=
  match source_channel_id c, target_channel_id c with
  | Some _, Some _ => true
  | _, _ => false
  end.

(** [CloneWorker.initialize_client]: without credentials nothing is
    created; otherwise a client is built and connected. *)
Definition initialize_client (s : State) : bool * State :=
  if has_credentials (config (files s))
  then (true, with_worker (set_client (Some true)) s)
  else (false, s).

(** [normalize_channel_id]: [str(cid)], the prefix test, and [int] of the
    text, which raises [ValueError] ([None]) on text that is no number. *)
Definition py_str (z : Z) : string := NilZero.string_of_int (Z.to_int z).

Definition py_int (s : string) : option Z :=
  option_map Z.of_int (NilZero.int_of_string s).

Definition normalize_channel_id (cid : Z) : option Z :=
  let c := py_str cid in
  if String.prefix "-100" c then py_int c else py_int (String.append "-100" c).

(** [client.get_entity(normalize_channel_id(cid))] under the [try].  Only
    the [int] of the text with the prefix put in front can raise; the
    exception text names that text. *)
Definition get_entity (env : Env) (cid : Z) : Exn + Z :=
  match normalize_channel_id cid with
  | None =>
      inl (String.append "invalid literal for int() with base 10: '"
             (String.append (String.append "-100" (py_str cid)) "'"))
  | Some n =>
      match resolve env n with
      | Some e => inl e
      | None => inr n
      end
  end.

(** The range filter of [clone_messages]:
    [if start_id and end_id: ... start_id <= msg.id <= end_id]. *)
Definition in_range (s e : Z) (m : Message) : bool :=
  (s <=? id m) && (id m <=? e).

Definition range_filter (start_id end_id : option Z) (msgs : list Message)
    : list Message :=
  match start_id, end_id with
  | Some s, Some e =>
      if truthy_int start_id && truthy_int end_id
      then filter (in_range s e) msgs
      else msgs
  | _, _ => msgs
  end.

Section Job.

Variable env : Env.
Variable app : bool.
Variable chat_id : option Z.

(** The Stop poll at the top of the collection loop: the marker is removed,
    the user is told, and the loop is left. *)
Definition collect_stop (acc : list Message) (s : State) : list Message * State :=
  (acc, update_status env StoppedByUser app chat_id
          (with_files (set_stop_flag false) s)).

(** [if len(all_messages) % 100 == 0: update_status(...)] *)
Definition report_collected (acc : list Message) (s : State) : State :=
  if (List.length acc mod 100 =? 0)%nat
  then update_status env (Collected (List.length acc)) app chat_id s
  else s.

(** The [while True] collection loop, by recursion on the answers still to
    come.  [acc] is [all_messages], [offset_id] the anchor of the next
    request. *)
Fixpoint collect (script : list (FetchResult * bool)) (acc : list Message)
    (offset_id : Z) (s : State) : list Message * State :=
  match script with
  | [] =>
      if stop_flag (files s) then collect_stop acc s
      else (acc, record_request offset_id s)
  | (r, req) :: rest =>
      if stop_flag (files s) then collect_stop acc s
      else
        let s1 := arrive_stop req (record_request offset_id s) in
        match r with
        | FetchErr e =>
            (acc, update_status env (CollectionError e) app chat_id s1)
        | FetchOk [] => (acc, s1)
        | FetchOk (m :: page) =>
            let acc' := acc ++ m :: page in
            collect rest acc' (id (last page m)) (report_collected acc' s1)
        end
  end.

(** The body of the [try] for one item: media goes out as a file with its
    caption, text as a message, anything else is left alone. *)
Definition transfer_item (i : nat) (m : Message) (s : State) : Exn + State :=
  match media m with
  | Some f =>
      match transfer env i with
      | Some e => inl e
      | None => inr (deliver (SentFile f (caption_of m)) s)
      end
  | None =>
      if truthy_str (text_or_message m) then
        match transfer env i with
        | Some e => inl e
        | None => inr (deliver (SentText (caption_of m)) s)
        end
      else inr s
  end.

(** The [for msg in all_messages] loop.  [i] counts the items reached,
    [processed] those that went through. *)
Fixpoint replicate (total interval : nat) (msgs : list Message)
    (i processed : nat) (s : State) : nat * State :=
  match msgs with
  | [] => (processed, s)
  | m :: rest =>
      if stop_flag (files s) then
        (processed,
         with_files (set_stop_flag false)
           (update_status env (Stopped processed total) app chat_id s))
      else
        match transfer_item i m s with
        | inr s1 =>
            let s2 := with_files (append_sent (id m)) s1 in
            let processed' := S processed in
            let s3 := with_worker (set_progress (processed', total)) s2 in
            let s4 :=
              if ((processed' mod interval =? 0) || (processed' =? total))%nat
              then update_status env (Cloning processed' total) app chat_id s3
              else s3 in
            replicate total interval rest (S i) processed'
                      (arrive_stop (stop_during env i) s4)
        | inl e =>
            let s1 := log_error env (fun t => MessageFailed t (id m) e) s in
            let s2 := update_status env (ErrorOnMessage (id m)) app chat_id s1 in
            replicate total interval rest (S i) processed
                      (arrive_stop (stop_during env i) s2)
        end
  end.

(** The final status block and the release of the client. *)
Definition finalize (processed total : nat) (s : State) : State :=
  let '(completion_msg, s1) :=
    if stop_flag (files s)
    then (StoppedEarly processed total, with_files (set_stop_flag false) s)
    else (Completed processed total, s) in
  let s2 := update_status env completion_msg app chat_id s1 in
  let s3 := with_worker (set_is_cloning false) s2 in
  with_worker (set_client (Some false)) s3.

(** Collection, reversal, range filter, clone loop and final status: the
    part of [clone_messages] after both channels are resolved. *)
Definition run_pipeline (start_id end_id : option Z) (s : State) : State :=
  let s1 := update_status env Collecting app chat_id s in
  let '(collected, s2) := collect (history env) [] 0 s1 in
  let all_messages := range_filter start_id end_id (rev collected) in
  let total_messages := List.length all_messages in
  let s3 := with_worker (set_progress (0%nat, total_messages)) s2 in
  let s4 := arrive_stop (stop_at_ready env)
              (update_status env (Ready total_messages) app chat_id s3) in
  let progress_interval := Nat.max 1 (total_messages / 10) in
  let '(processed, s5) :=
    replicate total_messages progress_interval all_messages 0 0 s4 in
  finalize processed total_messages s5.

(** [CloneWorker.clone_messages] *)
Definition clone_messages (start_id end_id : option Z) (s : State) : State :=
  if is_cloning (worker s) then
    update_status env AlreadyRunning app chat_id s
  else
    let s1 := with_worker (set_is_cloning true) s in
    let cfg := config (files s1) in
    let '(ok, s2) := initialize_client s1 in
    if negb ok then
      with_worker (set_is_cloning false)
        (update_status env ClientInitFailed app chat_id s2)
    else
      match source_channel_id cfg, target_channel_id cfg with
      | Some src, Some tgt =>
          match get_entity env src with
          | inl e =>
              with_worker (set_is_cloning false)
                (update_status env (ChannelAccessFailed e) app chat_id s2)
          | inr _ =>
              match get_entity env tgt with
              | inl e =>
                  with_worker (set_is_cloning false)
                    (update_status env (ChannelAccessFailed e) app chat_id s2)
              | inr _ => run_pipeline start_id end_id s2
              end
          end
      | _, _ =>
          with_worker (set_is_cloning false)
            (update_status env MissingChannel app chat_id s2)
      end.

End Job.

(** ** Front-end handlers that start, stop and resume a job *)

(** The reply texts of the handlers below. *)
Inductive Reply :=
| NoPreviousClone              (* "No previous clone operation to resume" *)
| NoSentMessages               (* "No sent messages found in log" *)
| Resuming (next : Z)          (* "Resuming clone from message {last_id + 1}" *)
| FullCloneStarted             (* "Full clone started..." *)
| StopRequested.               (* "Clone stop requested." *)

(** The keyword arguments of a [clone_messages] task handed to
    [asyncio.create_task]. *)
Record Launch := mkLaunch {
  l_start_id : option Z;
  l_end_id : option Z
}.

(** [resume_clone]: the reply, the files afterwards, and the task created,
    if any.  [lines[-1]] is the last line of the log. *)
Definition resume_clone (f : Files) : Reply * Files * option Launch :=
  match sent_log f with
  | None => (NoPreviousClone, f, None)
  | Some lines =>
      match lines with
      | [] => (NoSentMessages, f, None)
      | x :: tl =>
          let last_id := last tl x in
          (Resuming (last_id + 1),
           set_stop_flag false (set_start_flag true f),
           Some {| l_start_id := Some (last_id + 1); l_end_id := None |})
      end
  end.

(** [full_clone] *)
Definition full_clone (f : Files) : Reply * Files * option Launch :=
  (FullCloneStarted,
   set_stop_flag false (set_start_flag true f),
   Some {| l_start_id := None; l_end_id := None |}).

(** [stop_clone] *)
Definition stop_clone (f : Files) : Reply * Files :=
  (StopRequested, set_stop_flag true f).

(** A handler's task, run by the event loop on the user's worker. *)
Definition run_launch (env : Env) (chat : Z) (l : option Launch) (s : State)
    : State :=
  match l with
  | Some a => clone_messages env true (Some chat) (l_start_id a) (l_end_id a) s
  | None => s
  end.

(** ** Vocabulary of the properties *)

Definition ids (l : list Message) : list Z := map id l.

Definition strictly_increasing (l : list Z) : Prop := StronglySorted Z.lt l.

(** A page is newest-first when its ids go strictly down. *)
Definition newest_first (p : list Message) : Prop :=
  StronglySorted Z.gt (ids p).

Definition newest_id (p : list Message) : Z := hd 0 (ids p).
Definition oldest_id (p : list Message) : Z := last (ids p) 0.

(** The pages among the answers of the platform. *)
Fixpoint script_pages (script : list (FetchResult * bool))
    : list (list Message) :=
  match script with
  | [] => []
  | (FetchOk p, _) :: rest => p :: script_pages rest
  | (FetchErr _, _) :: rest => script_pages rest
  end.

(** Each page's oldest id is below the oldest id of the page before. *)
Definition oldest_ids_descend (pages : list (list Message)) : Prop :=
  Sorted (fun p q => oldest_id q < oldest_id p) pages.

(** Each page lies wholly below the page before: its newest id is below the
    oldest id of that page, as a request anchored at that id gives. *)
Definition anchored (pages : list (list Message)) : Prop :=
  Sorted (fun p q => newest_id q < oldest_id p) pages.

(** What the Channel Reader hands on: [all_messages] after the loop and the
    [reverse()]. *)
Definition reader_output (env : Env) (app : bool) (chat_id : option Z)
    (s : State) : list Message :=
  rev (fst (collect env app chat_id (history env) [] 0 s)).

(** The sequence the clone loop runs over. *)
Definition selected (env : Env) (app : bool) (chat_id : option Z)
    (start_id end_id : option Z) (s : State) : list Message :=
  range_filter start_id end_id (reader_output env app chat_id s).

(** The lines of the sent log, none when the file is absent. *)
Definition sent_lines (f : Files) : list Z :=
  match sent_log f with
  | Some l => l
  | None => []
  end.

(** Whether an item has anything to transfer. *)
Definition has_payload (m : Message) : bool :=
  truthy_media (media m) || truthy_str (text_or_message m).

(** What the target receives for an item that goes through. *)
Definition delivery_of (m : Message) : list Delivery :=
  match media m with
  | Some f => [SentFile f (caption_of m)]
  | None =>
      if truthy_str (text_or_message m) then [SentText (caption_of m)] else []
  end.

(** The outcome of an item, in the words of the Replicator's description:
    an item with media or text is transferred and may fail; any other item
    is a no-op. *)
Inductive Outcome :=
| Transferred
| NoOp
| Failed (e : Exn).

Definition item_outcome (env : Env) (i : nat) (m : Message) : Outcome :=
  if has_payload m then
    match transfer env i with
    | Some e => Failed e
    | None => Transferred
    end
  else NoOp.

Definition succeeded (o : Outcome) : bool :=
  match o with
  | Failed _ => false
  | _ => true
  end.

(** The items the loop reaches, each with its outcome: none when Stop is
    already set, otherwise the items up to and including the first one
    during which a Stop request lands. *)
Fixpoint processed_items (env : Env) (stop : bool) (i : nat)
    (msgs : list Message) : list (Message * Outcome) :=
  match msgs with
  | [] => []
  | m :: rest =>
      if stop then []
      else (m, item_outcome env i m)
             :: processed_items env (stop_during env i) (S i) rest
  end.

(** The ids the sent log is to gain: the processed items that succeeded or
    were no-ops, in processing order. *)
Definition expected_sent (env : Env) (stop : bool) (msgs : list Message)
    : list Z :=
  map (fun mo => id (fst mo))
      (filter (fun mo => succeeded (snd mo)) (processed_items env stop 0 msgs)).

(** ** Sample data *)

(** A plain text message and a message with neither media nor text. *)
Definition text_msg (i : Z) : Message :=
  {| id := i; media := None; text := Some "hello"%string;
     message := Some "hello"%string |}.

Definition empty_msg (i : Z) : Message :=
  {| id := i; media := None; text := None; message := None |}.

(** An environment in which nothing fails and no Stop request lands, the
    platform answering with the given pages. *)
Definition calm (pages : list (list Message)) : Env :=
  {| now := 0%nat; resolve := fun _ => None;
     history := map (fun p => (FetchOk p, false)) pages;
     stop_at_ready := false; transfer := fun _ => None;
     stop_during := fun _ => false; notify := fun _ => None |}.

Definition full_config : Config :=
  {| api_id := Some 12345; api_hash := Some "0123456789abcdef"%string;
     phone := Some "+123456789012"%string;
     source_channel_id := Some (-1001111); target_channel_id := Some 2222 |}.

(** A user with the given config and sent log, and a worker that has not
    run yet. *)
Definition start_state (c : Config) (log : option (list Z)) : State :=
  {| worker := new_worker;
     files := {| stop_flag := false; start_flag := false; sent_log := log;
                 error_log := []; status_file := None; config := c |};
     target := []; outbox := []; sends := 0%nat; requests := [] |}.

(** The ids [hi], [hi - 1], ..., [hi - n + 1] as text messages, the way a
    page lists them. *)
Fixpoint page_down (hi : Z) (n : nat) : list Message :=
  match n with
  | O => []
  | S k => text_msg hi :: page_down (hi - 1) k
  end.

(** The range filter as the specification words it: with both bounds
    supplied, the messages whose id lies between them; otherwise the
    sequence as it is. *)
Definition range_filter_spec (start_id end_id : option Z)
    (msgs : list Message) : list Message :=
  match start_id, end_id with
  | Some s, Some e => filter (in_range s e) msgs
  | _, _ => msgs
  end.

(** A channel of 250 text messages, read in pages of 100, with a Stop
    request landing while the 50th item is in flight. *)
Definition stop_after_50 : Env :=
  {| now := 0%nat; resolve := fun _ => None;
     history := map (fun p => (FetchOk p, false))
                    [page_down 250 100; page_down 150 100; page_down 50 50];
     stop_at_ready := false; transfer := fun _ => None;
     stop_during := fun i => (i =? 49)%nat; notify := fun _ => None |}.

(** Credentials present, channels not chosen yet. *)
Definition no_channel_config : Config :=
  {| api_id := Some 12345; api_hash := Some "0123456789abcdef"%string;
     phone := Some "+123456789012"%string;
     source_channel_id := None; target_channel_id := None |}.

(** A platform on which no channel can be resolved. *)
Definition unreachable : Env :=
  {| now := 0%nat; resolve := fun _ => Some "ChannelInvalidError"%string;
     history := []; stop_at_ready := false; transfer := fun _ => None;
     stop_during := fun _ => false; notify := fun _ => None |}.

(** A worker in the middle of a job, 50 of 250 items done. *)
Definition busy_state : State :=
  {| worker := {| client := Some true; is_cloning := true;
                  current_status := Cloning 50 250; last_update := Some 0%nat;
                  progress := (50%nat, 250%nat) |};
     files := {| stop_flag := false; start_flag := true;
                 sent_log := Some [1; 2; 3]; error_log := [];
                 status_file :=
                   Some {| sd_message := Cloning 50 250; sd_timestamp := 0%nat;
                           sd_progress := (50%nat, 250%nat) |};
                 config := full_config |};
     target := []; outbox := []; sends := 0%nat; requests := [] |}.

(** The state after one item that went through. *)
Definition after_success env app chat_id (total interval : nat) (m : Message)
    (i processed : nat) (s1 : State) : State :=
  let s3 := with_worker (set_progress (S processed, total))
              (with_files (append_sent (id m)) s1) in
  arrive_stop (stop_during env i)
    (if ((S processed mod interval =? 0) || (S processed =? total))%nat
     then update_status env (Cloning (S processed) total) app chat_id s3
     else s3).

(** The state after one item that failed. *)
Definition after_failure env app chat_id (m : Message) (i : nat) (e : Exn)
    (s : State) : State :=
  arrive_stop (stop_during env i)
    (update_status env (ErrorOnMessage (id m)) app chat_id
       (log_error env (fun t => MessageFailed t (id m) e) s)).


(** An environment in which the transfer of the first item raises. *)
Definition flaky (pages : list (list Message)) : Env :=
  {| now := 0%nat; resolve := fun _ => None;
     history := map (fun p => (FetchOk p, false)) pages;
     stop_at_ready := false;
     transfer := fun i => if (i =? 0)%nat
                          then Some "FloodWaitError"%string else None;
     stop_during := fun _ => false; notify := fun _ => None |}.

(** Three pages of two messages, with a Stop request landing while the
    second page is fetched. *)
Definition stop_in_second_fetch : Env :=
  {| now := 0%nat; resolve := fun _ => None;
     history := [(FetchOk (page_down 6 2), false);
                 (FetchOk (page_down 4 2), true);
                 (FetchOk (page_down 2 2), false)];
     stop_at_ready := false; transfer := fun _ => None;
     stop_during := fun _ => false; notify := fun _ => None |}.

(** ** Further handlers and vocabulary *)

(** The reply of [mission_status]. *)
Inductive StatusReply :=
| MissionStatus (msg : Status) (timestamp : Time) (done_total : nat * nat)
                               (* "Mission Status: ..." *)
| NoActiveMission.             (* "No active mission found." *)

(** [mission_status]: the snapshot file, read back for the user. *)
Definition mission_status (f : Files) : StatusReply :=
  match status_file f with
  | Some d => MissionStatus (sd_message d) (sd_timestamp d) (sd_progress d)
  | None => NoActiveMission
  end.

(** [l'] is [l] with something appended. *)
Definition extends {A : Type} (l l' : list A) : Prop :=
  exists more, l' = l ++ more.

(** Between two states, the logs, the target channel, the notifications
    and the history requests have only grown, and the config and the start
    marker are as they were. *)
Definition only_appends (s s' : State) : Prop :=
  extends (sent_lines (files s)) (sent_lines (files s'))
  /\ extends (error_log (files s)) (error_log (files s'))
  /\ extends (target s) (target s')
  /\ extends (outbox s) (outbox s')
  /\ extends (requests s) (requests s')
  /\ config (files s') = config (files s)
  /\ start_flag (files s') = start_flag (files s).

(** The same environment with other notification outcomes. *)
Definition with_notify (n : nat -> option Exn) (env : Env) : Env :=
  {| now := now env; resolve := resolve env; history := history env;
     stop_at_ready := stop_at_ready env; transfer := transfer env;
     stop_during := stop_during env; notify := n |}.

(** Two states that differ at most in the error log and in the record of
    notifications. *)
Definition same_job (s1 s2 : State) : Prop :=
  worker s1 = worker s2
  /\ stop_flag (files s1) = stop_flag (files s2)
  /\ start_flag (files s1) = start_flag (files s2)
  /\ sent_log (files s1) = sent_log (files s2)
  /\ status_file (files s1) = status_file (files s2)
  /\ config (files s1) = config (files s2)
  /\ target s1 = target s2
  /\ requests s1 = requests s2.

(** What the target is to receive in a run of the clone loop: the
    deliveries of the processed items that did not fail. *)
Definition expected_deliveries (env : Env) (stop : bool) (msgs : list Message)
    : list Delivery :=
  flat_map (fun mo => if succeeded (snd mo) then delivery_of (fst mo) else [])
           (processed_items env stop 0 msgs).

(** The offsets asked of the platform when the given pages come back one
    after the other: the first offset, then the oldest id of each page. *)
Definition anchors (offset_id : Z) (pages : list (list Message)) : list Z :=
  offset_id :: map oldest_id pages.

(** An environment in which every notification fails. *)
Definition muted (env : Env) : Env :=
  with_notify (fun _ => Some "TimedOut"%string) env.

(** A message with a photo and a caption. *)
Definition media_msg (i : Z) : Message :=
  {| id := i; media := Some 1%nat; text := Some "caption"%string;
     message := Some "caption"%string |}.

(** A platform whose second history request fails. *)
Definition breaks_on_second_fetch : Env :=
  {| now := 0%nat; resolve := fun _ => None;
     history := [(FetchOk (page_down 4 2), false);
                 (FetchErr "ServerError"%string, false);
                 (FetchOk (page_down 2 2), false)];
     stop_at_ready := false; transfer := fun _ => None;
     stop_during := fun _ => false; notify := fun _ => None |}.

(** The snapshot file names the worker's status, time stamp and
    progress. *)
Definition synced (env : Env) (s : State) : Prop :=
  mission_status (files s)
  = MissionStatus (current_status (worker s)) (now env) (progress (worker s))
  /\ last_update (worker s) = Some (now env).

(** Two messages in one page, with a Stop request landing while the last
    item is in flight. *)
Definition stop_on_last : Env :=
  {| now := 0%nat; resolve := fun _ => None;
     history := [(FetchOk (page_down 2 2), false)];
     stop_at_ready := false; transfer := fun _ => None;
     stop_during := fun i => (i =? 1)%nat; notify := fun _ => None |}.

(** ** What a status update leaves alone *)

Ltac split_cases :=
  repeat match goal with
         | |- context [match ?x with _ => _ end] => destruct x eqn:?
         end.

Ltac status_frame :=
  intros; unfold update_status, log_error, attempt_send, with_files,
            with_worker; split_cases; reflexivity.

Section StatusFrame.

Variables (env : Env) (msg : Status) (app : bool) (chat_id : option Z).

Lemma update_status_stop_flag s :
  stop_flag (files (update_status env msg app chat_id s)) = stop_flag (files s).
Proof. status_frame. Qed.

Lemma update_status_start_flag s :
  start_flag (files (update_status env msg app chat_id s)) = start_flag (files s).
Proof. status_frame. Qed.

Lemma update_status_sent_log s :
  sent_log (files (update_status env msg app chat_id s)) = sent_log (files s).
Proof. status_frame. Qed.

Lemma update_status_config s :
  config (files (update_status env msg app chat_id s)) = config (files s).
Proof. status_frame. Qed.

Lemma update_status_target s :
  target (update_status env msg app chat_id s) = target s.
Proof. status_frame. Qed.

Lemma update_status_requests s :
  requests (update_status env msg app chat_id s) = requests s.
Proof. status_frame. Qed.

Lemma update_status_is_cloning s :
  is_cloning (worker (update_status env msg app chat_id s))
  = is_cloning (worker s).
Proof. status_frame. Qed.

Lemma update_status_client s :
  client (worker (update_status env msg app chat_id s)) = client (worker s).
Proof. status_frame. Qed.

Lemma update_status_progress s :
  progress (worker (update_status env msg app chat_id s)) = progress (worker s).
Proof. status_frame. Qed.

Lemma update_status_current s :
  current_status (worker (update_status env msg app chat_id s)) = msg.
Proof. status_frame. Qed.

(** The error log only grows under a status update, by at most the one
    line of a failed delivery. *)
Lemma update_status_error_log s :
  error_log (files (update_status env msg app chat_id s)) = error_log (files s)
  \/ exists e,
      error_log (files (update_status env msg app chat_id s))
      = error_log (files s) ++ [StatusUpdateFailed (now env) e].
Proof.
  unfold update_status, log_error, attempt_send, with_files, with_worker.
  destruct chat_id as [c|]; [|now left].
  destruct (app && truthy_int (Some c)); [|now left].
  simpl. destruct (notify env (sends s)) as [e|]; simpl.
  - right. now exists e.
  - now left.
Qed.

End StatusFrame.

Create Rewrite HintDb frame.

#[local] Hint Rewrite update_status_stop_flag update_status_start_flag
  update_status_sent_log update_status_config update_status_target
  update_status_requests update_status_is_cloning update_status_client
  update_status_progress update_status_current : frame.

Lemma arrive_stop_sent_log req s :
  sent_log (files (arrive_stop req s)) = sent_log (files s).
Proof. destruct req; reflexivity. Qed.

Lemma arrive_stop_target req s : target (arrive_stop req s) = target s.
Proof. destruct req; reflexivity. Qed.

Lemma arrive_stop_error_log req s :
  error_log (files (arrive_stop req s)) = error_log (files s).
Proof. destruct req; reflexivity. Qed.

Lemma arrive_stop_stop_flag req s :
  stop_flag (files (arrive_stop req s)) = req || stop_flag (files s).
Proof. destruct req; reflexivity. Qed.

Lemma arrive_stop_worker req s : worker (arrive_stop req s) = worker s.
Proof. destruct req; reflexivity. Qed.

#[local] Hint Rewrite arrive_stop_sent_log arrive_stop_target
  arrive_stop_error_log arrive_stop_stop_flag arrive_stop_worker : frame.

Lemma update_status_sent_lines env msg app chat_id s :
  sent_lines (files (update_status env msg app chat_id s))
  = sent_lines (files s).
Proof. unfold sent_lines. now rewrite update_status_sent_log. Qed.

Lemma arrive_stop_sent_lines req s :
  sent_lines (files (arrive_stop req s)) = sent_lines (files s).
Proof. destruct req; reflexivity. Qed.

Lemma arrive_stop_requests req s : requests (arrive_stop req s) = requests s.
Proof. destruct req; reflexivity. Qed.

Lemma append_sent_lines i f : sent_lines (append_sent i f) = sent_lines f ++ [i].
Proof. unfold sent_lines, append_sent. simpl. now destruct (sent_log f). Qed.

#[local] Hint Rewrite update_status_sent_lines arrive_stop_sent_lines
  arrive_stop_requests : frame.

Lemma sent_lines_set_stop_flag b f :
  sent_lines (set_stop_flag b f) = sent_lines f.
Proof. reflexivity. Qed.

#[local] Hint Rewrite sent_lines_set_stop_flag : frame.

Lemma with_files_files f s : files (with_files f s) = f (files s).
Proof. reflexivity. Qed.

Lemma with_files_target f s : target (with_files f s) = target s.
Proof. reflexivity. Qed.

Lemma with_files_requests f s : requests (with_files f s) = requests s.
Proof. reflexivity. Qed.

Lemma with_files_worker f s : worker (with_files f s) = worker s.
Proof. reflexivity. Qed.

Lemma with_worker_files f s : files (with_worker f s) = files s.
Proof. reflexivity. Qed.

Lemma with_worker_target f s : target (with_worker f s) = target s.
Proof. reflexivity. Qed.

Lemma with_worker_requests f s : requests (with_worker f s) = requests s.
Proof. reflexivity. Qed.

Lemma with_worker_worker f s : worker (with_worker f s) = f (worker s).
Proof. reflexivity. Qed.

Lemma record_request_files o s : files (record_request o s) = files s.
Proof. reflexivity. Qed.

Lemma record_request_target o s : target (record_request o s) = target s.
Proof. reflexivity. Qed.

Lemma record_request_requests o s :
  requests (record_request o s) = requests s ++ [o].
Proof. reflexivity. Qed.

Lemma stop_flag_set_stop_flag b f : stop_flag (set_stop_flag b f) = b.
Proof. reflexivity. Qed.

#[local] Hint Rewrite with_files_files with_files_target with_files_requests
  with_files_worker with_worker_files with_worker_target
  with_worker_requests with_worker_worker
  record_request_files record_request_target
  record_request_requests stop_flag_set_stop_flag : frame.

Lemma report_collected_frame env app chat_id acc s :
  stop_flag (files (report_collected env app chat_id acc s))
  = stop_flag (files s)
  /\ sent_lines (files (report_collected env app chat_id acc s))
     = sent_lines (files s)
  /\ target (report_collected env app chat_id acc s) = target s
  /\ requests (report_collected env app chat_id acc s) = requests s.
Proof.
  unfold report_collected.
  destruct (List.length acc mod 100 =? 0)%nat; now autorewrite with frame.
Qed.

Lemma report_collected_stop_flag env app chat_id acc s :
  stop_flag (files (report_collected env app chat_id acc s))
  = stop_flag (files s).
Proof. apply report_collected_frame. Qed.

Lemma report_collected_sent_lines env app chat_id acc s :
  sent_lines (files (report_collected env app chat_id acc s))
  = sent_lines (files s).
Proof. apply report_collected_frame. Qed.

Lemma report_collected_target env app chat_id acc s :
  target (report_collected env app chat_id acc s) = target s.
Proof. apply report_collected_frame. Qed.

Lemma report_collected_requests env app chat_id acc s :
  requests (report_collected env app chat_id acc s) = requests s.
Proof. apply report_collected_frame. Qed.

#[local] Hint Rewrite report_collected_stop_flag report_collected_sent_lines
  report_collected_target report_collected_requests : frame.

(** ** Sorted lists *)

Lemma ssorted_app {A : Type} (R : A -> A -> Prop) l1 l2 :
  StronglySorted R l1 -> StronglySorted R l2 ->
  (forall x y, In x l1 -> In y l2 -> R x y) ->
  StronglySorted R (l1 ++ l2).
Proof.
  induction l1 as [|a l1 IH]; simpl; intros H1 H2 H12; [assumption|].
  apply StronglySorted_inv in H1 as [H1 Ha].
  constructor.
  - apply IH; auto.
  - apply Forall_app. split; [assumption|].
    apply Forall_forall. intros y Hy. apply H12; auto.
Qed.

Section SortedLists.

Context {A : Type} (R : A -> A -> Prop).

Lemma ssorted_rev l :
  StronglySorted R l -> StronglySorted (fun x y => R y x) (rev l).
Proof.
  induction 1 as [|a l Hl IH Ha]; simpl; [constructor|].
  apply ssorted_app; [assumption | repeat constructor |].
  intros x y Hx [<-|[]]. apply in_rev in Hx.
  rewrite Forall_forall in Ha. auto.
Qed.

Lemma sorted_firstn k l : Sorted R l -> Sorted R (firstn k l).
Proof.
  revert l. induction k as [|k IH]; intros l Hl; simpl; [constructor|].
  destruct l as [|a l]; [constructor|].
  apply Sorted_inv in Hl as [Hl Ha].
  constructor; [auto|].
  destruct l as [|b l]; destruct k; simpl; constructor.
  now apply HdRel_inv in Ha.
Qed.

End SortedLists.

Lemma forall_firstn {A : Type} (P : A -> Prop) k l :
  Forall P l -> Forall P (firstn k l).
Proof.
  revert l. induction k as [|k IH]; intros [|a l] H; simpl; try constructor.
  - now apply Forall_inv in H.
  - apply IH. now apply Forall_inv_tail in H.
Qed.

(** ** The Channel Reader *)

Lemma descending_le_head a l x :
  StronglySorted Z.gt (a :: l) -> In x (a :: l) -> x <= a.
Proof.
  intros H Hx. apply StronglySorted_inv in H as [_ Ha].
  destruct Hx as [->|Hx]; [lia|].
  rewrite Forall_forall in Ha. specialize (Ha x Hx). lia.
Qed.

Lemma descending_ge_last l x :
  StronglySorted Z.gt l -> In x l -> last l 0 <= x.
Proof.
  induction l as [|a l IH]; intros H Hx; [destruct Hx|].
  apply StronglySorted_inv in H as [Hl Ha].
  destruct l as [|b l]; [destruct Hx as [->|[]]; simpl; lia|].
  change (last (a :: b :: l) 0) with (last (b :: l) 0).
  destruct Hx as [->|Hx]; [|auto].
  rewrite Forall_forall in Ha.
  assert (Hb : In (last (b :: l) 0) (b :: l)).
  { destruct (exists_last (l := b :: l)) as (l' & z & E); [discriminate|].
    rewrite E, last_last. apply in_or_app. right. now left. }
  specialize (Ha _ Hb). lia.
Qed.

(** The loop returns what it was given plus some first pages of the
    answers, none of them empty. *)
Lemma collect_prefix env app chat_id script :
  forall acc offset_id s,
  exists k,
    fst (collect env app chat_id script acc offset_id s)
    = acc ++ List.concat (firstn k (script_pages script))
    /\ Forall (fun p => p <> []) (firstn k (script_pages script)).
Proof.
  induction script as [|[r req] rest IH]; intros acc o s; simpl.
  - exists 0%nat. simpl. rewrite app_nil_r. split; [|constructor].
    destruct (stop_flag (files s)); reflexivity.
  - destruct (stop_flag (files s)).
    { exists 0%nat. simpl. rewrite app_nil_r. split; [reflexivity|constructor]. }
    destruct r as [[|m page]|e].
    + exists 0%nat. simpl. rewrite app_nil_r. split; [reflexivity|constructor].
    + match goal with
      | |- context [collect _ _ _ rest ?a ?b ?c] =>
          destruct (IH a b c) as (k & Hk & Hne)
      end.
      exists (S k). simpl. rewrite Hk, <- app_assoc. split; [reflexivity|].
      constructor; [discriminate|assumption].
    + exists 0%nat. simpl. rewrite app_nil_r. split; [reflexivity|constructor].
Qed.

(** Every id of a run of anchored, newest-first, non-empty pages lies below
    any bound above the newest id of its first page. *)
Lemma anchored_below pages :
  Forall newest_first pages -> Forall (fun p => p <> []) pages ->
  anchored pages ->
  forall b, (forall q, hd_error pages = Some q -> newest_id q < b) ->
  forall x, In x (ids (List.concat pages)) -> x < b.
Proof.
  induction pages as [|p rest IH]; intros Hnf Hne Han b Hb x Hx;
    [destruct Hx|].
  apply Forall_cons_iff in Hnf as [Hp Hnf].
  apply Forall_cons_iff in Hne as [Hpe Hne].
  apply Sorted_inv in Han as [Han Hhd].
  specialize (Hb p eq_refl).
  simpl in Hx. unfold ids in Hx. rewrite map_app in Hx.
  destruct p as [|m p]; [congruence|].
  assert (Htop : forall y, In y (ids (m :: p)) -> y <= newest_id (m :: p)).
  { intros y Hy. apply (descending_le_head _ (ids p)); assumption. }
  apply in_app_or in Hx as [Hx|Hx].
  - specialize (Htop x Hx). lia.
  - assert (x < oldest_id (m :: p)).
    { apply (IH Hnf Hne Han); [|exact Hx].
      intros q Hq. destruct rest as [|q' rest]; [discriminate|].
      injection Hq as ->. now apply HdRel_inv in Hhd. }
    assert (oldest_id (m :: p) <= id m).
    { apply descending_ge_last; [exact Hp|now left]. }
    assert (id m <= newest_id (m :: p)) by (apply Htop; now left).
    lia.
Qed.

Lemma anchored_concat_descending pages :
  Forall newest_first pages -> Forall (fun p => p <> []) pages ->
  anchored pages ->
  StronglySorted Z.gt (ids (List.concat pages)).
Proof.
  induction pages as [|p rest IH]; intros Hnf Hne Han; [constructor|].
  pose proof Hnf as Hnf'. pose proof Hne as Hne'. pose proof Han as Han'.
  apply Forall_cons_iff in Hnf as [Hp Hnf].
  apply Forall_cons_iff in Hne as [Hpe Hne].
  apply Sorted_inv in Han as [Han Hhd].
  simpl. unfold ids. rewrite map_app.
  apply ssorted_app; [exact Hp | now apply IH |].
  intros x y Hx Hy.
  assert (y < oldest_id p).
  { apply (anchored_below rest Hnf Hne Han); [|exact Hy].
    intros q Hq. destruct rest as [|q' rest]; [discriminate|].
    injection Hq as ->. now apply HdRel_inv in Hhd. }
  assert (oldest_id p <= x) by (now apply descending_ge_last).
  lia.
Qed.

(** C1, as amended: when every page is newest-first and every page's newest
    id is below the oldest id of the page before it, the Channel Reader's
    collected and reversed output is strictly increasing by message id,
    whatever Stop requests and fetch errors cut the collection short. *)
Theorem reader_output_strictly_increasing env app chat_id s :
  Forall newest_first (script_pages (history env)) ->
  anchored (script_pages (history env)) ->
  strictly_increasing (ids (reader_output env app chat_id s)).
Proof.
  intros Hnf Han. unfold reader_output, strictly_increasing.
  destruct (collect_prefix env app chat_id (history env) [] 0 s)
    as (k & -> & Hne).
  simpl. unfold ids. rewrite map_rev.
  assert (Hd : StronglySorted Z.gt
                 (ids (List.concat (firstn k (script_pages (history env)))))).
  { apply anchored_concat_descending.
    - now apply forall_firstn.
    - exact Hne.
    - now apply sorted_firstn. }
  apply ssorted_rev in Hd.
  eapply StronglySorted_rect with
    (P := fun l => StronglySorted Z.lt l) in Hd; [exact Hd|constructor|].
  intros a l _ Hl Ha. constructor; [exact Hl|].
  eapply Forall_impl; [|exact Ha]. simpl. intros; lia.
Qed.

Lemma reader_output_strictly_increasing_witness :
  let env := calm [page_down 5 2; page_down 3 3] in
  strictly_increasing
    (ids (reader_output env true (Some 7) (start_state full_config None))).
Proof.
  intro env.
  apply (reader_output_strictly_increasing env true (Some 7)
           (start_state full_config None)).
  - simpl. repeat constructor.
  - simpl. repeat constructor.
Defined.

(** C1 as stated fails: two newest-first pages whose oldest ids go down
    (5, then 4) but which overlap give a reversed output 4, 7, 8, 5, 9, 10. *)
Lemma reader_output_oldest_ids_not_enough :
  let env := calm [[text_msg 10; text_msg 9; text_msg 5];
                   [text_msg 8; text_msg 7; text_msg 4]] in
  Forall newest_first (script_pages (history env))
  /\ oldest_ids_descend (script_pages (history env))
  /\ ids (reader_output env true (Some 7) (start_state full_config None))
     = [4; 7; 8; 5; 9; 10]
  /\ ~ strictly_increasing
         (ids (reader_output env true (Some 7) (start_state full_config None))).
Proof.
  intro env. split; [|split; [|split]].
  - simpl. repeat constructor.
  - simpl. repeat constructor.
  - reflexivity.
  - change (ids (reader_output env true (Some 7)
                   (start_state full_config None)))
      with [4; 7; 8; 5; 9; 10].
    intro H.
    apply StronglySorted_inv in H as [H _].
    apply StronglySorted_inv in H as [H _].
    apply StronglySorted_inv in H as [_ H].
    apply Forall_inv in H. lia.
Qed.

(** ** The Range Filter *)

Lemma range_filter_both_nonzero s e msgs :
  s <> 0 -> e <> 0 ->
  range_filter (Some s) (Some e) msgs = filter (in_range s e) msgs.
Proof.
  intros Hs He. unfold range_filter, truthy_int.
  apply Z.eqb_neq in Hs, He. now rewrite Hs, He.
Qed.

Lemma range_filter_no_end start_id msgs :
  range_filter start_id None msgs = msgs.
Proof. destruct start_id; reflexivity. Qed.

Lemma range_filter_no_start end_id msgs :
  range_filter None end_id msgs = msgs.
Proof. reflexivity. Qed.

(** Where both bounds are non-zero, or one is missing, the filter is the
    one the specification describes. *)
Lemma range_filter_meets_spec start_id end_id msgs :
  start_id <> Some 0 -> end_id <> Some 0 ->
  range_filter start_id end_id msgs = range_filter_spec start_id end_id msgs.
Proof.
  intros Hs He. destruct start_id as [s|], end_id as [e|]; try reflexivity.
  apply range_filter_both_nonzero; congruence.
Qed.

(** The filter keeps the order of what it lets through. *)
Lemma range_filter_keeps_order (R : Z -> Z -> Prop) start_id end_id msgs :
  StronglySorted R (ids msgs) ->
  StronglySorted R (ids (range_filter start_id end_id msgs)).
Proof.
  intros H. unfold range_filter.
  destruct start_id as [s|], end_id as [e|]; try assumption.
  destruct (truthy_int (Some s) && truthy_int (Some e)); [|assumption].
  induction msgs as [|m msgs IH]; [constructor|].
  apply StronglySorted_inv in H as [Hl Hm].
  simpl. destruct (in_range s e m); [|now apply IH].
  simpl. constructor; [now apply IH|].
  rewrite Forall_forall in *. intros x Hx. apply Hm.
  unfold ids in *. apply in_map_iff in Hx as (y & <- & Hy).
  apply filter_In in Hy as [Hy _]. now apply in_map.
Qed.

(** C2: with both bounds supplied and the start bound 0, the code's filter
    keeps all 30 messages of a channel holding ids 1..30, where the filter
    of the specification keeps ids 1..20: a bound of 0 counts as not
    supplied in [if start_id and end_id]. *)
Theorem range_filter_zero_start_ignored :
  let msgs := rev (page_down 30 30) in
  range_filter (Some 0) (Some 20) msgs = msgs
  /\ range_filter_spec (Some 0) (Some 20) msgs = rev (page_down 20 20)
  /\ range_filter (Some 0) (Some 20) msgs
     <> range_filter_spec (Some 0) (Some 20) msgs.
Proof.
  intro msgs. split; [reflexivity|]. split; [reflexivity|].
  intro H. apply (f_equal (@List.length Message)) in H.
  vm_compute in H. discriminate.
Qed.

(** ** Stop during the clone loop: the final status *)

(** Once the loop has seen the Stop marker it has removed it, so the final
    status block finds no marker and reports a completion. *)
Lemma replicate_stop_seen env app chat_id total interval m rest i processed s :
  stop_flag (files s) = true ->
  let r := replicate env app chat_id total interval (m :: rest) i processed s in
  fst r = processed
  /\ stop_flag (files (snd r)) = false
  /\ current_status (worker (finalize env app chat_id (fst r) total (snd r)))
     = Completed processed total.
Proof.
  intros Hs. simpl. rewrite Hs. simpl. split; [reflexivity|].
  split; [reflexivity|].
  unfold finalize. simpl. now autorewrite with frame.
Qed.

(** C3: a channel of ids 1..250, Stop requested while item 50 is in flight.
    The loop stops before item 51 with 50 items logged, tells the user
    "Stopped (50/250 done)" and clears the marker; the job then ends with
    the status "Completed: 50/250 messages", not "Stopped early". *)
Theorem stop_after_50_of_250_reports_completed :
  let s' := clone_messages stop_after_50 true (Some 7) None None
              (start_state full_config None) in
  sent_lines (files s') = map Z.of_nat (seq 1 50)
  /\ progress (worker s') = (50%nat, 250%nat)
  /\ stop_flag (files s') = false
  /\ In (Stopped 50 250) (map (fun n => sd_message (snd n)) (outbox s'))
  /\ current_status (worker s') = Completed 50 250
  /\ option_map sd_message (status_file (files s')) = Some (Completed 50 250)
  /\ ~ In (StoppedEarly 50 250) (map (fun n => sd_message (snd n)) (outbox s')).
Proof.
  vm_compute. repeat split; try reflexivity.
  - do 6 right. now left.
  - intros H. repeat (destruct H as [H|H]; [discriminate|]). exact H.
Qed.

(** ** Release of the client *)

Lemma missing_channel_keeps_client env app chat_id start_id end_id s :
  is_cloning (worker s) = false ->
  has_credentials (config (files s)) = true ->
  has_channels (config (files s)) = false ->
  let s' := clone_messages env app chat_id start_id end_id s in
  client (worker s') = Some true
  /\ current_status (worker s') = MissingChannel.
Proof.
  intros Hc Hcr Hch. unfold clone_messages, initialize_client.
  rewrite Hc. simpl. rewrite Hcr. simpl.
  unfold has_channels in Hch.
  destruct (source_channel_id (config (files s))),
           (target_channel_id (config (files s)));
    try discriminate; simpl; now autorewrite with frame.
Qed.


(** C8: with credentials but no channels configured, and likewise when a
    channel cannot be resolved, the job connects the client, reports the
    failure and returns with the client still connected. *)
Theorem failed_start_leaves_client_connected :
  let s1 := clone_messages (calm []) true (Some 7) None None
              (start_state no_channel_config None) in
  let s2 := clone_messages unreachable true (Some 7) None None
              (start_state full_config None) in
  (current_status (worker s1) = MissingChannel
   /\ is_cloning (worker s1) = false
   /\ client (worker s1) = Some true)
  /\ (current_status (worker s2) = ChannelAccessFailed "ChannelInvalidError"%string
      /\ is_cloning (worker s2) = false
      /\ client (worker s2) = Some true).
Proof. vm_compute. repeat split. Qed.

(** ** Resume *)

Lemma last_cons_default {A : Type} (l : list A) (x d : A) :
  last (x :: l) d = last l x.
Proof.
  revert x d. induction l as [|a l IH]; intros x d; [reflexivity|].
  change (last (x :: a :: l) d) with (last (a :: l) d).
  rewrite IH. symmetry. apply IH.
Qed.

Lemma last_is_rev_head {A : Type} (l : list A) (d : A) :
  last l d = hd d (rev l).
Proof.
  destruct l as [|a l] using rev_ind; [reflexivity|].
  now rewrite last_last, rev_unit.
Qed.

Lemma resume_clone_last_line f lines x :
  sent_log f = Some (lines ++ [x]) ->
  resume_clone f
  = (Resuming (x + 1), set_stop_flag false (set_start_flag true f),
     Some {| l_start_id := Some (x + 1); l_end_id := None |}).
Proof.
  intros H. unfold resume_clone. rewrite H.
  destruct (lines ++ [x]) as [|y tl] eqn:E.
  - now destruct lines.
  - rewrite <- (last_cons_default tl y 0), <- E, last_last. reflexivity.
Qed.

(** C5: resume reads the final line of the sent log and starts the job at
    that id plus one; with the log absent or empty it answers with a
    nothing-to-resume text, changes no file and creates no task. *)
Theorem resume_clone_next_start f :
  match sent_log f with
  | None => resume_clone f = (NoPreviousClone, f, None)
  | Some lines =>
      match rev lines with
      | [] => resume_clone f = (NoSentMessages, f, None)
      | last_logged_id :: _ =>
          fst (fst (resume_clone f)) = Resuming (last_logged_id + 1)
          /\ snd (resume_clone f)
             = Some {| l_start_id := Some (last_logged_id + 1);
                       l_end_id := None |}
      end
  end.
Proof.
  destruct (sent_log f) as [lines|] eqn:E.
  - destruct lines as [|x lines] using rev_ind.
    + simpl. unfold resume_clone. now rewrite E.
    + rewrite rev_unit.
      rewrite (resume_clone_last_line f lines x E). split; reflexivity.
  - unfold resume_clone. now rewrite E.
Qed.

(** A resumed job on a channel of ids 1..5 whose first three messages are
    already logged sends and logs all five again. *)
Lemma resume_resends_logged_messages :
  let s := start_state full_config (Some [1; 2; 3]) in
  let '(reply, f, task) := resume_clone (files s) in
  let s' := run_launch (calm [page_down 5 5]) 7 task
              (with_files (fun _ => f) s) in
  reply = Resuming 4
  /\ sent_lines (files s') = [1; 2; 3; 1; 2; 3; 4; 5]
  /\ List.length (target s') = 5%nat
  /\ current_status (worker s') = Completed 5 5.
Proof. vm_compute. repeat split. Qed.

(** ** A second clone request while a job runs *)

(** C6, as amended: a clone request for a user whose job is active is
    answered with the already-running status and starts nothing: the sent
    log, both control markers and the config are left as they are, as are
    the running flag, the progress and the client.  The status snapshot is
    rewritten with the already-running text, and the error log gains one
    line exactly when the notification cannot be delivered. *)
Theorem clone_while_running_rejected env c start_id end_id s :
  is_cloning (worker s) = true -> c <> 0 ->
  let s' := clone_messages env true (Some c) start_id end_id s in
  let d := {| sd_message := AlreadyRunning; sd_timestamp := now env;
              sd_progress := progress (worker s) |} in
  current_status (worker s') = AlreadyRunning
  /\ status_file (files s') = Some d
  /\ sent_log (files s') = sent_log (files s)
  /\ stop_flag (files s') = stop_flag (files s)
  /\ start_flag (files s') = start_flag (files s)
  /\ config (files s') = config (files s)
  /\ is_cloning (worker s') = true
  /\ progress (worker s') = progress (worker s)
  /\ client (worker s') = client (worker s)
  /\ target s' = target s
  /\ requests s' = requests s
  /\ match notify env (sends s) with
     | None =>
         outbox s' = outbox s ++ [(c, d)]
         /\ error_log (files s') = error_log (files s)
     | Some e =>
         outbox s' = outbox s
         /\ error_log (files s')
            = error_log (files s) ++ [StatusUpdateFailed (now env) e]
     end.
Proof.
  intros Hrun Hc. unfold clone_messages. rewrite Hrun.
  unfold update_status, truthy_int.
  apply Z.eqb_neq in Hc. rewrite Hc. simpl.
  destruct (notify env (sends s)); simpl; repeat split; assumption.
Qed.

Lemma clone_while_running_rejected_witness :
  let s' := clone_messages (calm []) true (Some 7) None None busy_state in
  current_status (worker s') = AlreadyRunning
  /\ option_map sd_message (status_file (files s')) = Some AlreadyRunning
  /\ sent_log (files s') = Some [1; 2; 3].
Proof.
  intro s'.
  destruct (clone_while_running_rejected (calm []) 7 None None busy_state)
    as (H1 & H2 & H3 & _); [reflexivity | lia |].
  fold s' in H1, H2, H3.
  split; [exact H1|]. split; [rewrite H2; reflexivity | exact H3].
Defined.

(** C6 as stated fails: the request rewrites the status snapshot of the
    running job, so the persisted state is not left unchanged. *)
Lemma clone_while_running_rewrites_snapshot :
  let s' := clone_messages (calm []) true (Some 7) None None busy_state in
  is_cloning (worker busy_state) = true
  /\ option_map sd_message (status_file (files busy_state))
     = Some (Cloning 50 250)
  /\ option_map sd_message (status_file (files s')) = Some AlreadyRunning
  /\ files s' <> files busy_state.
Proof.
  repeat split. intro H. apply (f_equal status_file) in H.
  vm_compute in H. discriminate.
Qed.

(** ** The clone loop *)

(** The [try] body goes through exactly when the item's outcome is not a
    failure, and then only the target channel has changed. *)
Lemma transfer_item_outcome env i m s :
  match item_outcome env i m with
  | Failed e => transfer_item env i m s = inl e
  | _ =>
      exists s1,
        transfer_item env i m s = inr s1
        /\ files s1 = files s /\ worker s1 = worker s
        /\ requests s1 = requests s
        /\ target s1 = target s ++ delivery_of m
  end.
Proof.
  unfold item_outcome, transfer_item, has_payload, delivery_of.
  destruct (media m) as [f|]; simpl.
  - destruct (transfer env i); [reflexivity|].
    eexists. split; [reflexivity|]. repeat split.
  - destruct (truthy_str (text_or_message m)).
    + destruct (transfer env i); [reflexivity|].
      eexists. split; [reflexivity|]. repeat split.
    + exists s. rewrite app_nil_r. repeat split.
Qed.

Lemma after_success_facts env app chat_id total interval m i processed s1 :
  sent_lines (files (after_success env app chat_id total interval m i processed s1))
  = sent_lines (files s1) ++ [id m]
  /\ stop_flag (files (after_success env app chat_id total interval m i processed s1))
     = stop_during env i || stop_flag (files s1)
  /\ target (after_success env app chat_id total interval m i processed s1)
     = target s1
  /\ requests (after_success env app chat_id total interval m i processed s1)
     = requests s1.
Proof.
  unfold after_success.
  destruct ((S processed mod interval =? 0) || (S processed =? total))%nat;
    autorewrite with frame; simpl; rewrite ?append_sent_lines; repeat split.
Qed.

Lemma after_failure_facts env app chat_id m i e s :
  sent_log (files (after_failure env app chat_id m i e s)) = sent_log (files s)
  /\ stop_flag (files (after_failure env app chat_id m i e s))
     = stop_during env i || stop_flag (files s)
  /\ target (after_failure env app chat_id m i e s) = target s
  /\ requests (after_failure env app chat_id m i e s) = requests s.
Proof.
  unfold after_failure. autorewrite with frame. simpl. repeat split.
Qed.

(** One turn of the loop when the Stop marker is absent. *)
Lemma replicate_step env app chat_id total interval m rest i processed s :
  stop_flag (files s) = false ->
  match item_outcome env i m with
  | Failed e =>
      replicate env app chat_id total interval (m :: rest) i processed s
      = replicate env app chat_id total interval rest (S i) processed
          (after_failure env app chat_id m i e s)
  | _ =>
      exists s1,
        transfer_item env i m s = inr s1
        /\ replicate env app chat_id total interval (m :: rest) i processed s
           = replicate env app chat_id total interval rest (S i) (S processed)
               (after_success env app chat_id total interval m i processed s1)
  end.
Proof.
  intros Hs. pose proof (transfer_item_outcome env i m s) as H.
  simpl. rewrite Hs.
  destruct (item_outcome env i m).
  - destruct H as (s1 & -> & _). now exists s1.
  - destruct H as (s1 & -> & _). now exists s1.
  - now rewrite H.
Qed.


(** The sent log after the loop: what it held, then the ids of the
    processed items that did not fail. *)
Lemma replicate_sent_lines env app chat_id total interval msgs :
  forall i processed s,
  sent_lines
    (files (snd (replicate env app chat_id total interval msgs i processed s)))
  = sent_lines (files s)
    ++ map (fun mo => id (fst mo))
         (filter (fun mo => succeeded (snd mo))
                 (processed_items env (stop_flag (files s)) i msgs)).
Proof.
  induction msgs as [|m rest IH]; intros i processed s.
  - simpl. now rewrite app_nil_r.
  - destruct (stop_flag (files s)) eqn:Hs.
    + simpl. rewrite Hs. simpl. autorewrite with frame. now rewrite app_nil_r.
    + pose proof (replicate_step env app chat_id total interval m rest i
                    processed s Hs) as Hstep.
      pose proof (transfer_item_outcome env i m s) as Hout.
      simpl processed_items.
      destruct (item_outcome env i m) eqn:Ho.
      1, 2: destruct Hstep as (s1 & Ht & ->);
        destruct Hout as (s1' & Ht' & Hf & _);
        rewrite Ht in Ht'; injection Ht' as <-;
        rewrite IH;
        destruct (after_success_facts env app chat_id total interval m i
                    processed s1) as (-> & -> & _);
        rewrite Hf, Hs, orb_false_r; simpl; now rewrite <- app_assoc.
      rewrite Hstep, IH.
      destruct (after_failure_facts env app chat_id m i e s) as (Hl & -> & _).
      unfold sent_lines at 1. rewrite Hl, Hs, orb_false_r. reflexivity.
Qed.





(** ** A failing item *)

(** C7: when the transfer of an item raises, the exception is caught: a
    line naming the message goes to the error log, nothing is sent or
    logged as sent for it, the job keeps running, and the loop goes on with
    the item after it (which it reaches unless a Stop request landed
    meanwhile). *)
Theorem item_failure_is_isolated env app chat_id total interval m rest i
    processed s e :
  stop_flag (files s) = false ->
  item_outcome env i m = Failed e ->
  exists s1,
    replicate env app chat_id total interval (m :: rest) i processed s
    = replicate env app chat_id total interval rest (S i) processed s1
    /\ (exists more,
          error_log (files s1)
          = error_log (files s) ++ MessageFailed (now env) (id m) e :: more)
    /\ current_status (worker s1) = ErrorOnMessage (id m)
    /\ sent_log (files s1) = sent_log (files s)
    /\ target s1 = target s
    /\ is_cloning (worker s1) = is_cloning (worker s)
    /\ client (worker s1) = client (worker s)
    /\ progress (worker s1) = progress (worker s)
    /\ stop_flag (files s1) = stop_during env i.
Proof.
  intros Hs Ho.
  pose proof (replicate_step env app chat_id total interval m rest i
                processed s Hs) as Hstep.
  rewrite Ho in Hstep.
  exists (after_failure env app chat_id m i e s).
  split; [exact Hstep|].
  destruct (after_failure_facts env app chat_id m i e s)
    as (Hl & Hf & Ht & _).
  unfold after_failure. autorewrite with frame.
  repeat split; try reflexivity.
  - destruct (update_status_error_log env (ErrorOnMessage (id m)) app chat_id
                (log_error env (fun t => MessageFailed t (id m) e) s))
      as [H|[e' H]]; rewrite H; simpl.
    + now exists [].
    + exists [StatusUpdateFailed (now env) e']. now rewrite <- app_assoc.
  - simpl. now rewrite Hs, orb_false_r.
Qed.

Lemma item_failure_is_isolated_witness :
  let s := start_state full_config None in
  exists s1,
    replicate (flaky []) true (Some 7) 2 1 [text_msg 1; text_msg 2] 0 0 s
    = replicate (flaky []) true (Some 7) 2 1 [text_msg 2] 1 0 s1
    /\ current_status (worker s1) = ErrorOnMessage 1
    /\ sent_log (files s1) = None.
Proof.
  intro s.
  destruct (item_failure_is_isolated (flaky []) true (Some 7) 2 1
              (text_msg 1) [text_msg 2] 0 0 s "FloodWaitError"%string)
    as (s1 & H1 & _ & H3 & H4 & _); [reflexivity | reflexivity |].
  exists s1. repeat split; assumption.
Defined.

(** A whole job in which the first of three items fails: the other two are
    sent and logged, and the job ends as completed with 2 of 3. *)
Lemma failing_item_run :
  let s' := clone_messages (flaky [page_down 3 3]) true (Some 7) None None
              (start_state full_config None) in
  sent_lines (files s') = [2; 3]
  /\ error_log (files s') = [MessageFailed 0%nat 1 "FloodWaitError"%string]
  /\ List.length (target s') = 2%nat
  /\ current_status (worker s') = Completed 2 3
  /\ is_cloning (worker s') = false.
Proof. vm_compute. repeat split. Qed.

(** ** Stop during collection *)

(** With the marker present at the top of the loop nothing is requested:
    the marker is removed, the user is told, and the loop ends with what
    it had. *)
Lemma collect_stopped env app chat_id script acc offset_id s :
  stop_flag (files s) = true ->
  collect env app chat_id script acc offset_id s
  = (acc, update_status env StoppedByUser app chat_id
            (with_files (set_stop_flag false) s)).
Proof.
  intros Hs. destruct script as [|[r req] rest]; simpl; now rewrite Hs.
Qed.

(** Pages fetched undisturbed, then a page during whose fetch a Stop
    request lands: that page is still taken, and nothing after it is
    requested. *)
Lemma collect_pages_then_stop env app chat_id pages page rest :
  Forall (fun p => p <> []) pages -> page <> [] ->
  forall acc offset_id s,
  stop_flag (files s) = false ->
  exists s',
    collect env app chat_id
      (map (fun p => (FetchOk p, false)) pages ++ (FetchOk page, true) :: rest)
      acc offset_id s
    = (acc ++ List.concat pages ++ page, s')
    /\ stop_flag (files s') = false
    /\ current_status (worker s') = StoppedByUser
    /\ sent_lines (files s') = sent_lines (files s)
    /\ target s' = target s
    /\ List.length (requests s')
       = (List.length (requests s) + List.length pages + 1)%nat.
Proof.
  intros Hne Hpage. induction Hne as [|p pages Hp Hne IH];
    intros acc o s Hs.
  - destruct page as [|m page]; [congruence|].
    cbn [map List.app collect List.concat]. rewrite Hs. rewrite collect_stopped.
    + eexists. split; [reflexivity|].
      autorewrite with frame. rewrite length_app. simpl.
      repeat split; lia.
    + now autorewrite with frame.
  - destruct p as [|m p]; [congruence|].
    cbn [map List.app collect List.concat]. rewrite Hs.
    match goal with
    | |- context [collect _ _ _ _ ?a ?b ?c] =>
        destruct (IH a b c) as (s' & Hc & H1 & H2 & H3 & H4 & H5)
    end.
    + now autorewrite with frame.
    + exists s'. rewrite Hc. split.
      { f_equal. rewrite <- !app_assoc. reflexivity. }
      split; [exact H1|]. split; [exact H2|].
      autorewrite with frame in H3, H4, H5.
      rewrite length_app in H5. simpl in H5. simpl.
      repeat split; try assumption; lia.
Qed.

(** A clone loop that nothing disturbs sends and logs every item. *)
Lemma replicate_undisturbed env app chat_id total interval msgs :
  (forall j, stop_during env j = false) ->
  (forall j, transfer env j = None) ->
  forall i processed s,
  stop_flag (files s) = false ->
  let r := replicate env app chat_id total interval msgs i processed s in
  fst r = (processed + List.length msgs)%nat
  /\ stop_flag (files (snd r)) = false
  /\ sent_lines (files (snd r)) = sent_lines (files s) ++ ids msgs
  /\ target (snd r) = target s ++ flat_map delivery_of msgs
  /\ requests (snd r) = requests s.
Proof.
  intros Hstop Hxfer. induction msgs as [|m rest IH]; intros i processed s Hs.
  - simpl. rewrite !app_nil_r. repeat split; [lia | exact Hs].
  - pose proof (replicate_step env app chat_id total interval m rest i
                  processed s Hs) as Hstep.
    pose proof (transfer_item_outcome env i m s) as Hout.
    assert (Ho : succeeded (item_outcome env i m) = true).
    { unfold item_outcome. rewrite Hxfer. now destruct (has_payload m). }
    destruct (item_outcome env i m); try discriminate;
      destruct Hstep as (s1 & Ht & Hr);
      destruct Hout as (s1' & Ht' & Hf & _ & Hq & Htg);
      rewrite Ht in Ht'; injection Ht' as <-;
      destruct (after_success_facts env app chat_id total interval m i
                  processed s1) as (Hl & Hsf & Hta & Hrq);
      (destruct (IH (S i) (S processed)
                   (after_success env app chat_id total interval m i
                      processed s1)) as (I1 & I2 & I3 & I4 & I5);
       [rewrite Hsf, Hstop, Hf; exact Hs|]);
      cbv zeta; rewrite Hr;
      rewrite I1, I3, I4, I5, Hl, Hta, Hrq, Htg, Hq, Hf;
      simpl; rewrite <- !app_assoc; repeat split; try assumption; lia.
Qed.

(** C10: when a Stop request lands while a page is being fetched, the next
    poll removes the marker and no further page is requested, but the job
    goes on: everything collected up to and including that page is
    reversed, range-filtered and, in a clone loop that nothing else
    disturbs, sent to the target and logged in full, and the job ends as
    completed. *)
Theorem stop_during_collection_still_clones env app chat_id start_id end_id
    s pages page rest :
  history env
  = map (fun p => (FetchOk p, false)) pages ++ (FetchOk page, true) :: rest ->
  Forall (fun p => p <> []) pages -> page <> [] ->
  stop_flag (files s) = false ->
  stop_at_ready env = false ->
  (forall i, stop_during env i = false) ->
  (forall i, transfer env i = None) ->
  let s' := run_pipeline env app chat_id start_id end_id s in
  let sel := range_filter start_id end_id (rev (List.concat pages ++ page)) in
  List.length (requests s')
  = (List.length (requests s) + List.length pages + 1)%nat
  /\ stop_flag (files s') = false
  /\ sent_lines (files s') = sent_lines (files s) ++ ids sel
  /\ target s' = target s ++ flat_map delivery_of sel
  /\ current_status (worker s') = Completed (List.length sel) (List.length sel)
  /\ is_cloning (worker s') = false.
Proof.
  intros Hh Hne Hpage Hs Hready Hstop Hxfer s' sel.
  subst s'. unfold run_pipeline. rewrite Hh.
  destruct (collect_pages_then_stop env app chat_id pages page rest Hne Hpage
              [] 0 (update_status env Collecting app chat_id s))
    as (s2 & Hc & H1 & _ & H3 & H4 & H5).
  { now autorewrite with frame. }
  rewrite Hc. cbn [List.app]. fold sel.
  set (s4 := arrive_stop (stop_at_ready env) _).
  assert (Hs4 : stop_flag (files s4) = false).
  { subst s4. autorewrite with frame. simpl. now rewrite Hready, H1. }
  pose proof (replicate_undisturbed env app chat_id (List.length sel)
                (Nat.max 1 (List.length sel / 10)) sel Hstop Hxfer 0%nat 0%nat
                s4 Hs4) as Hrep.
  destruct (replicate env app chat_id (List.length sel)
              (Nat.max 1 (List.length sel / 10)) sel 0 0 s4)
    as [processed s5].
  cbv zeta in Hrep. cbn [fst snd] in Hrep.
  destruct Hrep as (R1 & R2 & R3 & R4 & R5).
  unfold finalize. rewrite R2. cbn [fst snd].
  autorewrite with frame. cbn [worker with_worker set_is_cloning set_client
    is_cloning progress current_status].
  autorewrite with frame.
  subst s4. autorewrite with frame in R3, R4, R5.
  cbn [files with_worker target requests] in R3, R4, R5.
  autorewrite with frame in H3, H4, H5.
  rewrite R1, R3, R4, R5, H3, H4, H5.
  repeat split. exact R2.
Qed.

Lemma stop_during_collection_still_clones_witness :
  let s' := run_pipeline stop_in_second_fetch true (Some 7) None None
              (start_state full_config None) in
  List.length (requests s') = 2%nat
  /\ stop_flag (files s') = false
  /\ sent_lines (files s') = [3; 4; 5; 6]
  /\ current_status (worker s') = Completed 4 4.
Proof.
  intro s'.
  destruct (stop_during_collection_still_clones stop_in_second_fetch true
              (Some 7) None None (start_state full_config None)
              [page_down 6 2] (page_down 4 2)
              [(FetchOk (page_down 2 2), false)])
    as (H1 & H2 & H3 & _ & H5 & _);
    try reflexivity.
  - repeat constructor. discriminate.
  - discriminate.
  - fold s' in H1, H2, H3, H5. repeat split; assumption.
Defined.

(** The same run, evaluated: the user is told of the stop, then of the
    clone of the four messages collected. *)
Lemma stop_in_second_fetch_run :
  let s' := clone_messages stop_in_second_fetch true (Some 7) None None
              (start_state full_config None) in
  map (fun n => sd_message (snd n)) (outbox s')
  = [Collecting; StoppedByUser; Ready 4; Cloning 1 4; Cloning 2 4;
     Cloning 3 4; Cloning 4 4; Completed 4 4]
  /\ requests s' = [0; 5]
  /\ sent_lines (files s') = [3; 4; 5; 6]
  /\ List.length (target s') = 4%nat.
Proof. vm_compute. repeat split. Qed.


(** * Further properties of the worker and its handlers *)

(** ** Channel id normalisation *)

Lemma to_int_nonnil z :
  Z.to_int z <> Decimal.Pos Decimal.Nil
  /\ Z.to_int z <> Decimal.Neg Decimal.Nil.
Proof.
  destruct z; simpl; split; try discriminate; intros [= H];
    now apply DecimalPos.Unsigned.to_uint_nonnil in H.
Qed.

(** [int(str(z))] is [z]. *)
Lemma py_int_py_str z : py_int (py_str z) = Some z.
Proof.
  unfold py_int, py_str. destruct (to_int_nonnil z) as [H1 H2].
  rewrite NilZero.isi by assumption. simpl. now rewrite DecimalZ.of_to.
Qed.

Lemma digits_no_minus u :
  u <> Decimal.Nil ->
  exists c s, NilEmpty.string_of_uint u = String c s /\ c <> "-"%char.
Proof.
  destruct u; intros H; try congruence; simpl; eexists; eexists;
    (split; [reflexivity|discriminate]).
Qed.

Lemma py_str_nonneg z :
  0 <= z ->
  exists u, u <> Decimal.Nil /\ py_str z = NilEmpty.string_of_uint u.
Proof.
  intros Hz. unfold py_str. destruct z as [|p|p]; [| |lia].
  - exists (Decimal.D0 Decimal.Nil). split; [discriminate|reflexivity].
  - exists (Pos.to_uint p). simpl.
    pose proof (DecimalPos.Unsigned.to_uint_nonnil p) as Hn.
    split; [assumption|]. unfold NilZero.string_of_uint.
    now destruct (Pos.to_uint p).
Qed.

Lemma py_str_neg z :
  z < 0 -> exists u, py_str z = String "-" (NilZero.string_of_uint u).
Proof.
  intros Hz. destruct z as [|p|p]; try lia. unfold py_str. simpl.
  now eexists.
Qed.

Lemma prefix_needs_minus c s :
  c <> "-"%char -> String.prefix "-100" (String c s) = false.
Proof.
  intros H.
  change (String.prefix "-100" (String c s))
    with (if Ascii.ascii_dec "-"%char c then String.prefix "100" s else false).
  destruct (Ascii.ascii_dec "-"%char c); [congruence|reflexivity].
Qed.

Lemma uint_of_string_minus s : NilEmpty.uint_of_string (String "-" s) = None.
Proof. simpl. now destruct (NilEmpty.uint_of_string s). Qed.

Lemma normalize_prefixed cid :
  String.prefix "-100" (py_str cid) = true ->
  normalize_channel_id cid = Some cid.
Proof.
  intros H. unfold normalize_channel_id. rewrite H. apply py_int_py_str.
Qed.

Lemma normalize_bare cid :
  0 <= cid ->
  exists n, normalize_channel_id cid = Some n
    /\ py_str n = String.append "-100" (py_str cid).
Proof.
  intros Hz. destruct (py_str_nonneg cid Hz) as (u & Hu & Hs).
  destruct (digits_no_minus u Hu) as (c & s & Hcs & Hc).
  unfold normalize_channel_id. rewrite Hs, Hcs, (prefix_needs_minus c s Hc).
  rewrite <- Hcs.
  exists (Z.of_int (Decimal.Neg (Decimal.D1 (Decimal.D0 (Decimal.D0 u))))).
  split.
  - unfold py_int. simpl. rewrite NilEmpty.usu. reflexivity.
  - unfold py_str. rewrite DecimalZ.to_of. reflexivity.
Qed.

Lemma normalize_negative_bare cid :
  cid < 0 -> String.prefix "-100" (py_str cid) = false ->
  normalize_channel_id cid = None.
Proof.
  intros Hz Hp. destruct (py_str_neg cid Hz) as (u & Hs).
  unfold normalize_channel_id. rewrite Hp, Hs. unfold py_int.
  change (String.append "-100" (String "-" (NilZero.string_of_uint u)))
    with (String "-" (String "1" (String "0" (String "0"
            (String "-" (NilZero.string_of_uint u)))))).
  change (NilZero.int_of_string
            (String "-" (String "1" (String "0" (String "0"
               (String "-" (NilZero.string_of_uint u)))))))
    with (option_map Decimal.Neg
            (uint_of_char "1" (uint_of_char "0" (uint_of_char "0"
               (NilEmpty.uint_of_string
                  (String "-" (NilZero.string_of_uint u))))))).
  rewrite uint_of_string_minus. reflexivity.
Qed.

(** X1: An id whose decimal text already starts with "-100" comes back as it
    is. *)
Theorem normalize_prefixed_unchanged cid :
  String.prefix "-100" (py_str cid) = true ->
  normalize_channel_id cid = Some cid.
Proof. apply normalize_prefixed. Qed.

Lemma normalize_prefixed_unchanged_witness :
  normalize_channel_id (-1001234567890) = Some (-1001234567890).
Proof.
  apply (normalize_prefixed_unchanged (-1001234567890)). reflexivity.
Defined.

(** X2: A bare id (zero or positive) gets the prefix: the result is negative
    and its decimal text is "-100" followed by the decimal text of the
    id. *)
Theorem normalize_bare_gets_prefix cid :
  0 <= cid ->
  exists n, normalize_channel_id cid = Some n
    /\ py_str n = String.append "-100" (py_str cid)
    /\ n < 0.
Proof.
  intros Hz. destruct (normalize_bare cid Hz) as (n & Hn & Hs).
  exists n. split; [exact Hn|]. split; [exact Hs|].
  destruct (Z.lt_ge_cases n 0) as [Hlt|Hge]; [exact Hlt|exfalso].
  destruct (py_str_nonneg n Hge) as (u & Hu & Hsn).
  destruct (digits_no_minus u Hu) as (c & s & Hcs & Hc).
  rewrite Hsn, Hcs in Hs. injection Hs as Hc' _. congruence.
Qed.

Lemma normalize_bare_gets_prefix_witness :
  exists n, normalize_channel_id 1234567890 = Some n
    /\ py_str n = String.append "-100" (py_str 1234567890)
    /\ n < 0.
Proof. apply (normalize_bare_gets_prefix 1234567890). lia. Defined.

(** X3: A negative id without the prefix cannot be normalised: the text
    "-100-..." is no number and [int] raises, so resolving the channel
    fails whatever the platform would answer. *)
Theorem normalize_negative_unprefixed_fails cid :
  cid < 0 -> String.prefix "-100" (py_str cid) = false ->
  normalize_channel_id cid = None
  /\ forall env, exists e, get_entity env cid = inl e.
Proof.
  intros Hz Hp. pose proof (normalize_negative_bare cid Hz Hp) as Hn.
  split; [exact Hn|]. intros env. unfold get_entity. rewrite Hn.
  now eexists.
Qed.

Lemma normalize_negative_unprefixed_fails_witness :
  normalize_channel_id (-5) = None
  /\ forall env, exists e, get_entity env (-5) = inl e.
Proof.
  apply (normalize_negative_unprefixed_fails (-5)); [lia|reflexivity].
Defined.

(** X4: Normalising twice changes nothing more. *)
Theorem normalize_idempotent cid n :
  normalize_channel_id cid = Some n -> normalize_channel_id n = Some n.
Proof.
  intros H.
  destruct (String.prefix "-100" (py_str cid)) eqn:Hp.
  - rewrite (normalize_prefixed cid Hp) in H.
    injection H as <-. now apply normalize_prefixed.
  - destruct (Z.lt_ge_cases cid 0) as [Hneg|Hpos].
    + rewrite (normalize_negative_bare cid Hneg Hp) in H. discriminate.
    + destruct (normalize_bare cid Hpos) as (n' & Hn' & Hs).
      rewrite Hn' in H. injection H as <-.
      apply normalize_prefixed. rewrite Hs.
      destruct (py_str cid); reflexivity.
Qed.

Lemma normalize_idempotent_witness :
  normalize_channel_id (-1002222) = Some (-1002222).
Proof. apply (normalize_idempotent 2222 (-1002222)). reflexivity. Defined.

(** ** How a clone request ends *)


(** The ways [clone_messages] can go for an idle worker. *)
Lemma clone_messages_cases env app chat_id start_id end_id s :
  is_cloning (worker s) = false ->
  let s0 := with_worker (set_is_cloning true) s in
  let s2 := with_worker (set_client (Some true)) s0 in
  let s' := clone_messages env app chat_id start_id end_id s in
  (has_credentials (config (files s)) = false
   /\ s' = with_worker (set_is_cloning false)
             (update_status env ClientInitFailed app chat_id s0))
  \/ (has_credentials (config (files s)) = true
      /\ has_channels (config (files s)) = false
      /\ s' = with_worker (set_is_cloning false)
                (update_status env MissingChannel app chat_id s2))
  \/ (has_credentials (config (files s)) = true
      /\ exists e,
           s' = with_worker (set_is_cloning false)
                  (update_status env (ChannelAccessFailed e) app chat_id s2))
  \/ (has_credentials (config (files s)) = true
      /\ has_channels (config (files s)) = true
      /\ s' = run_pipeline env app chat_id start_id end_id s2).
Proof.
  intros Hidle s0 s2 s'. subst s'. unfold clone_messages, initialize_client.
  rewrite Hidle. cbn [files with_worker].
  destruct (has_credentials (config (files s))) eqn:Hc; cbn [negb fst snd].
  2: { left. split; reflexivity. }
  right. unfold has_channels.
  destruct (source_channel_id (config (files s))) as [src|];
    [destruct (target_channel_id (config (files s))) as [tgt|]|].
  - destruct (get_entity env src) as [e|n1].
    + right. left. split; [reflexivity|]. now exists e.
    + destruct (get_entity env tgt) as [e|n2].
      * right. left. split; [reflexivity|]. now exists e.
      * right. right. repeat split.
  - left. repeat split.
  - left. repeat split.
Qed.





(** ** The status snapshot *)

Lemma update_status_snapshot env msg c s :
  c <> 0 ->
  status_file (files (update_status env msg true (Some c) s))
  = Some {| sd_message := msg; sd_timestamp := now env;
            sd_progress := progress (worker s) |}
  /\ last_update (worker (update_status env msg true (Some c) s))
     = Some (now env).
Proof.
  intros Hc. unfold update_status, truthy_int.
  apply Z.eqb_neq in Hc. rewrite Hc. cbn [negb andb].
  destruct (notify env _); split; reflexivity.
Qed.

Lemma update_status_synced env msg c s :
  c <> 0 -> synced env (update_status env msg true (Some c) s).
Proof.
  intros Hc. destruct (update_status_snapshot env msg c s Hc) as [Hf Hl].
  unfold synced, mission_status. rewrite Hf, Hl. cbn [sd_message
    sd_timestamp sd_progress]. now autorewrite with frame.
Qed.

Lemma synced_set_is_cloning env b s :
  synced env s -> synced env (with_worker (set_is_cloning b) s).
Proof. intros H. exact H. Qed.

Lemma synced_set_client env c s :
  synced env s -> synced env (with_worker (set_client c) s).
Proof. intros H. exact H. Qed.

(** X7: When a clone request returns, whichever way it went, the snapshot that
    [mission_status] reads back is the worker's own last status, time stamp
    and progress. *)
Theorem snapshot_matches_worker env c start_id end_id s :
  c <> 0 ->
  let s' := clone_messages env true (Some c) start_id end_id s in
  mission_status (files s')
  = MissionStatus (current_status (worker s')) (now env)
                  (progress (worker s'))
  /\ last_update (worker s') = Some (now env).
Proof.
  intros Hc s'. subst s'. change (synced env
    (clone_messages env true (Some c) start_id end_id s)).
  destruct (is_cloning (worker s)) eqn:Hrun.
  - unfold clone_messages. rewrite Hrun. now apply update_status_synced.
  - destruct (clone_messages_cases env true (Some c) start_id end_id s Hrun)
      as [(_ & ->)|[(_ & _ & ->)|[(_ & e & ->)|(_ & _ & ->)]]];
      try (apply synced_set_is_cloning; now apply update_status_synced).
    unfold run_pipeline.
    destruct (collect _ _ _ _ _ _ _) as [collected s2].
    destruct (replicate _ _ _ _ _ _ _ _ _) as [processed s5].
    unfold finalize. destruct (stop_flag (files s5));
      apply synced_set_client, synced_set_is_cloning;
      now apply update_status_synced.
Qed.

Lemma snapshot_matches_worker_witness :
  mission_status
    (files (clone_messages stop_after_50 true (Some 7) None None
              (start_state full_config None)))
  = MissionStatus (Completed 50 250) 0%nat (50%nat, 250%nat).
Proof.
  destruct (snapshot_matches_worker stop_after_50 7 None None
              (start_state full_config None)) as [H _]; [lia|].
  rewrite H. vm_compute. reflexivity.
Defined.

(** ** Logs are only appended to *)

Lemma extends_refl {A : Type} (l : list A) : extends l l.
Proof. exists []. now rewrite app_nil_r. Qed.

Lemma extends_trans {A : Type} (l1 l2 l3 : list A) :
  extends l1 l2 -> extends l2 l3 -> extends l1 l3.
Proof.
  intros [m1 ->] [m2 ->]. exists (m1 ++ m2). now rewrite app_assoc.
Qed.

Lemma extends_app {A : Type} (l more : list A) : extends l (l ++ more).
Proof. now exists more. Qed.

Lemma only_appends_refl s : only_appends s s.
Proof. unfold only_appends. repeat split; apply extends_refl. Qed.

Lemma only_appends_trans s1 s2 s3 :
  only_appends s1 s2 -> only_appends s2 s3 -> only_appends s1 s3.
Proof.
  intros (A1 & A2 & A3 & A4 & A5 & A6 & A7) (B1 & B2 & B3 & B4 & B5 & B6 & B7).
  unfold only_appends. repeat split; try (eapply extends_trans; eassumption);
    congruence.
Qed.

Ltac appends_step :=
  unfold only_appends;
  cbn [files with_files with_worker target outbox requests worker];
  rewrite ?append_sent_lines; cbn;
  repeat split; first [apply extends_refl | apply extends_app].

Lemma update_status_only_appends env msg app chat_id s :
  only_appends s (update_status env msg app chat_id s).
Proof.
  unfold update_status, log_error, attempt_send.
  destruct chat_id as [c|]; [|appends_step].
  destruct (app && truthy_int (Some c)); [|appends_step].
  cbn [sends with_files with_worker].
  destruct (notify env (sends s)); appends_step.
Qed.

Lemma with_worker_only_appends f s : only_appends s (with_worker f s).
Proof. appends_step. Qed.

Lemma set_stop_flag_only_appends b s :
  only_appends s (with_files (set_stop_flag b) s).
Proof. appends_step. Qed.

Lemma append_sent_only_appends i s :
  only_appends s (with_files (append_sent i) s).
Proof. appends_step. Qed.

Lemma log_error_only_appends env entry s :
  only_appends s (log_error env entry s).
Proof. unfold log_error. appends_step. Qed.

Lemma record_request_only_appends o s : only_appends s (record_request o s).
Proof. appends_step. Qed.

Lemma arrive_stop_only_appends req s : only_appends s (arrive_stop req s).
Proof. destruct req; [apply set_stop_flag_only_appends|apply only_appends_refl]. Qed.

Lemma report_collected_only_appends env app chat_id acc s :
  only_appends s (report_collected env app chat_id acc s).
Proof.
  unfold report_collected. destruct (_ =? _)%nat;
    [apply update_status_only_appends|apply only_appends_refl].
Qed.

Lemma transfer_item_only_appends env i m s s1 :
  transfer_item env i m s = inr s1 -> only_appends s s1.
Proof.
  unfold transfer_item.
  destruct (media m); [destruct (transfer env i); [discriminate|]|
    destruct (truthy_str (text_or_message m));
      [destruct (transfer env i); [discriminate|]|]];
    intros [= <-]; try apply only_appends_refl; appends_step.
Qed.

Create HintDb appends.

#[local] Hint Resolve only_appends_refl update_status_only_appends
  with_worker_only_appends set_stop_flag_only_appends
  append_sent_only_appends log_error_only_appends
  record_request_only_appends arrive_stop_only_appends
  report_collected_only_appends : appends.

Ltac appends_chain :=
  repeat first
    [ assumption
    | apply only_appends_refl
    | eapply only_appends_trans; [|solve [auto with appends]] ].

Lemma collect_only_appends env app chat_id script :
  forall acc offset_id s,
  only_appends s (snd (collect env app chat_id script acc offset_id s)).
Proof.
  induction script as [|[r req] rest IH]; intros acc o s; cbn [collect].
  - destruct (stop_flag (files s)); unfold collect_stop; cbn [snd];
      appends_chain.
  - destruct (stop_flag (files s)); [unfold collect_stop; cbn [snd];
      appends_chain|].
    destruct r as [[|m page]|e]; cbn [snd].
    + appends_chain.
    + eapply only_appends_trans; [|apply IH]. appends_chain.
    + appends_chain.
Qed.

Lemma replicate_only_appends env app chat_id total interval msgs :
  forall i processed s,
  only_appends s
    (snd (replicate env app chat_id total interval msgs i processed s)).
Proof.
  induction msgs as [|m rest IH]; intros i processed s; cbn [replicate].
  - apply only_appends_refl.
  - destruct (stop_flag (files s)); [cbn [snd]; appends_chain|].
    destruct (transfer_item env i m s) as [e|s1] eqn:Ht.
    + eapply only_appends_trans; [|apply IH]. appends_chain.
    + apply transfer_item_only_appends in Ht.
      eapply only_appends_trans; [|apply IH].
      destruct (_ || _)%bool; appends_chain.
Qed.

Lemma run_pipeline_only_appends env app chat_id start_id end_id s :
  only_appends s (run_pipeline env app chat_id start_id end_id s).
Proof.
  unfold run_pipeline.
  pose proof (collect_only_appends env app chat_id (history env) [] 0
                (update_status env Collecting app chat_id s)) as Hc.
  destruct (collect _ _ _ _ _ _ _) as [collected s2]. cbn [snd] in Hc.
  match goal with
  | |- context [replicate ?e ?a ?c ?t ?n ?l ?i ?p ?st] =>
      pose proof (replicate_only_appends e a c t n l i p st) as Hr;
      destruct (replicate e a c t n l i p st) as [processed s5]
  end.
  cbn [snd] in Hr. unfold finalize.
  apply only_appends_trans with s5;
    [|destruct (stop_flag (files s5)); appends_chain].
  match type of Hr with
  | only_appends ?x _ => apply only_appends_trans with x; [|exact Hr]
  end.
  apply only_appends_trans with s2; [|appends_chain].
  eapply only_appends_trans; [|exact Hc]. appends_chain.
Qed.

(** X8: A clone request, whatever its outcome, never rewrites or truncates
    the sent log or the error log: both end with what they held plus new
    lines.  The same holds for what the target channel and the user have
    received, and the config and the start marker are not written. *)
Theorem clone_only_appends env app chat_id start_id end_id s :
  only_appends s (clone_messages env app chat_id start_id end_id s).
Proof.
  destruct (is_cloning (worker s)) eqn:Hrun.
  - unfold clone_messages. rewrite Hrun. appends_chain.
  - destruct (clone_messages_cases env app chat_id start_id end_id s Hrun)
      as [(_ & ->)|[(_ & _ & ->)|[(_ & e & ->)|(_ & _ & ->)]]];
      try solve [appends_chain].
    eapply only_appends_trans; [|apply run_pipeline_only_appends].
    appends_chain.
Qed.

(** ** The clone loop: counter, progress, deliveries *)

Lemma after_success_worker env app chat_id total interval m i processed s1 :
  progress (worker (after_success env app chat_id total interval m i
                      processed s1))
  = (S processed, total).
Proof.
  unfold after_success. autorewrite with frame.
  destruct (_ || _)%bool; now autorewrite with frame.
Qed.

Lemma after_failure_worker env app chat_id m i e s :
  progress (worker (after_failure env app chat_id m i e s))
  = progress (worker s).
Proof. unfold after_failure. now autorewrite with frame. Qed.

Lemma replicate_facts env app chat_id total interval msgs :
  forall i processed s,
  let r := replicate env app chat_id total interval msgs i processed s in
  let items := processed_items env (stop_flag (files s)) i msgs in
  fst r
  = (processed
     + List.length (filter (fun mo => succeeded (snd mo)) items))%nat
  /\ target (snd r)
     = target s
       ++ flat_map (fun mo => if succeeded (snd mo)
                              then delivery_of (fst mo) else []) items
  /\ (progress (worker s) = (processed, total) ->
      progress (worker (snd r)) = (fst r, total))
  /\ (stop_flag (files (snd r)) = true ->
      List.length items = List.length msgs).
Proof.
  induction msgs as [|m rest IH]; intros i processed s r items;
    subst r items.
  - cbn. rewrite app_nil_r, Nat.add_0_r. repeat split; auto.
  - destruct (stop_flag (files s)) eqn:Hs.
    + cbn [replicate processed_items]. rewrite Hs. cbn [fst snd filter
        flat_map List.length]. autorewrite with frame.
      rewrite app_nil_r, Nat.add_0_r. repeat split; auto. discriminate.
    + pose proof (replicate_step env app chat_id total interval m rest i
                    processed s Hs) as Hstep.
      pose proof (transfer_item_outcome env i m s) as Hout.
      cbn [processed_items].
      destruct (item_outcome env i m) eqn:Ho.
      1, 2: destruct Hstep as (s1 & Ht & ->);
        destruct Hout as (s1' & Ht' & Hf & _ & _ & Htg);
        rewrite Ht in Ht'; injection Ht' as <-;
        destruct (after_success_facts env app chat_id total interval m i
                    processed s1) as (_ & Hsf & Hta & _);
        pose proof (after_success_worker env app chat_id total interval m i
                      processed s1) as Hw;
        specialize (IH (S i) (S processed)
                      (after_success env app chat_id total interval m i
                         processed s1));
        cbv zeta in IH; rewrite Hsf, Hf, Hs, orb_false_r in IH;
        destruct IH as (I1 & I2 & I3 & I4);
        cbn [filter flat_map snd fst succeeded List.length];
        rewrite I1, I2, Hta, Htg, <- app_assoc;
        (repeat split; [lia | intros _; rewrite <- I1; now apply I3
                       | intros H; f_equal; now apply I4]).
      rewrite Hstep.
      destruct (after_failure_facts env app chat_id m i e s)
        as (_ & Hsf & Hta & _).
      pose proof (after_failure_worker env app chat_id m i e s) as Hw.
      specialize (IH (S i) processed (after_failure env app chat_id m i e s)).
      cbv zeta in IH. rewrite Hsf, Hs, orb_false_r in IH.
      destruct IH as (I1 & I2 & I3 & I4).
      cbn [filter flat_map snd fst succeeded List.length].
      rewrite I1, I2, Hta. cbn [List.app].
      repeat split.
      * intros Hp. rewrite <- I1. apply I3. now rewrite Hw.
      * intros H. f_equal. now apply I4.
Qed.

Lemma processed_items_length env stop msgs :
  forall i, (List.length (processed_items env stop i msgs)
             <= List.length msgs)%nat.
Proof.
  revert stop. induction msgs as [|m rest IH]; intros stop i; [cbn; lia|].
  cbn. destruct stop; cbn; [lia|]. specialize (IH (stop_during env i) (S i)).
  lia.
Qed.

(** X9: In every run of the clone loop the target channel gains exactly the
    deliveries of the processed items that did not fail, in order: a file
    with its caption for a message with media, the text for a text
    message, nothing for a message with neither. *)
Theorem target_receives_processed env app chat_id total interval msgs
    processed s :
  target (snd (replicate env app chat_id total interval msgs 0 processed s))
  = target s ++ expected_deliveries env (stop_flag (files s)) msgs.
Proof.
  destruct (replicate_facts env app chat_id total interval msgs 0%nat
              processed s) as (_ & H & _).
  exact H.
Qed.

(** X10: The counter the loop returns has advanced by the number of ids the
    run appended to the sent log. *)
Theorem processed_counts_logged env app chat_id total interval msgs
    processed s :
  fst (replicate env app chat_id total interval msgs 0 processed s)
  = (processed
     + List.length (expected_sent env (stop_flag (files s)) msgs))%nat.
Proof.
  destruct (replicate_facts env app chat_id total interval msgs 0%nat
              processed s) as (H & _).
  unfold expected_sent. now rewrite length_map.
Qed.

(** X11: The final status block reports "Stopped early" only when the loop has
    gone through every item: a loop that was cut short by the Stop marker
    has removed the marker, and the job ends as completed. *)
Theorem stopped_early_only_after_last_item env app chat_id total interval
    msgs processed s p t :
  let r := replicate env app chat_id total interval msgs 0 processed s in
  current_status (worker (finalize env app chat_id (fst r) total (snd r)))
  = StoppedEarly p t ->
  List.length (processed_items env (stop_flag (files s)) 0 msgs)
  = List.length msgs.
Proof.
  intros r H. subst r.
  destruct (replicate_facts env app chat_id total interval msgs 0%nat
              processed s) as (_ & _ & _ & Hall).
  apply Hall. unfold finalize in H.
  destruct (stop_flag (files (snd (replicate env app chat_id total interval
                                     msgs 0 processed s)))); [reflexivity|].
  cbn [worker with_worker set_client set_is_cloning current_status] in H.
  autorewrite with frame in H. discriminate.
Qed.

Lemma stopped_early_only_after_last_item_witness :
  let s := start_state full_config None in
  List.length (processed_items stop_on_last (stop_flag (files s)) 0
                 [text_msg 1; text_msg 2])
  = 2%nat.
Proof.
  intro s.
  apply (stopped_early_only_after_last_item stop_on_last true (Some 7) 2 1
           [text_msg 1; text_msg 2] 0 s 2 2).
  reflexivity.
Defined.

(** ** Progress at the end of a job *)

Lemma collect_frame env app chat_id script :
  forall acc offset_id s,
  sent_lines (files (snd (collect env app chat_id script acc offset_id s)))
  = sent_lines (files s)
  /\ target (snd (collect env app chat_id script acc offset_id s)) = target s.
Proof.
  induction script as [|[r req] rest IH]; intros acc o s; cbn [collect].
  - destruct (stop_flag (files s)); unfold collect_stop; cbn [snd];
      now autorewrite with frame.
  - destruct (stop_flag (files s)); [unfold collect_stop; cbn [snd];
      now autorewrite with frame|].
    destruct r as [[|m page]|e]; cbn [snd].
    + now autorewrite with frame.
    + match goal with
      | |- context [collect _ _ _ rest ?a ?b ?c] =>
          destruct (IH a b c) as [-> ->]
      end.
      now autorewrite with frame.
    + now autorewrite with frame.
Qed.

(** X12: When a job that got as far as collecting ends, the worker's progress
    is (done, total) where total is the number of messages selected for
    cloning and done is the number of ids this job has appended to the
    sent log; done never exceeds total. *)
Theorem progress_at_job_end env app chat_id start_id end_id s :
  let s' := run_pipeline env app chat_id start_id end_id s in
  let sel := selected env app chat_id start_id end_id
               (update_status env Collecting app chat_id s) in
  exists appended,
    sent_lines (files s') = sent_lines (files s) ++ appended
    /\ progress (worker s') = (List.length appended, List.length sel)
    /\ (List.length appended <= List.length sel)%nat.
Proof.
  intros s' sel. subst s' sel. unfold selected, reader_output, run_pipeline.
  destruct (collect_frame env app chat_id (history env) [] 0
              (update_status env Collecting app chat_id s)) as [Hl _].
  destruct (collect _ _ _ _ _ _ _) as [collected s2]. cbn [fst snd] in *.
  set (sel := range_filter start_id end_id (rev collected)).
  set (s4 := arrive_stop (stop_at_ready env) _).
  pose proof (replicate_sent_lines env app chat_id (List.length sel)
                (Nat.max 1 (List.length sel / 10)) sel 0%nat 0%nat s4) as Hsent.
  destruct (replicate_facts env app chat_id (List.length sel)
              (Nat.max 1 (List.length sel / 10)) sel 0%nat 0%nat s4)
    as (Hcount & _ & Hprog & _).
  destruct (replicate _ _ _ _ _ _ _ _ _) as [processed s5].
  cbn [fst snd] in *.
  set (items := processed_items env (stop_flag (files s4)) 0 sel) in *.
  exists (map (fun mo => id (fst mo))
            (filter (fun mo => succeeded (snd mo)) items)).
  rewrite length_map. cbn [Nat.add] in Hcount.
  assert (Hs4 : sent_lines (files s4) = sent_lines (files s)).
  { subst s4. autorewrite with frame. rewrite Hl.
    now autorewrite with frame. }
  assert (Hp4 : progress (worker s4) = (0%nat, List.length sel)).
  { subst s4. now autorewrite with frame. }
  specialize (Hprog Hp4). rewrite Hcount in Hprog.
  pose proof (filter_length_le (fun mo => succeeded (snd mo)) items) as Hle1.
  pose proof (processed_items_length env (stop_flag (files s4)) sel 0%nat)
    as Hle2.
  fold items in Hle2.
  unfold finalize. destruct (stop_flag (files s5));
    cbn [worker with_worker set_client set_is_cloning progress files];
    autorewrite with frame; rewrite Hsent, Hs4, Hprog;
    (repeat split; lia).
Qed.

(** ** Pagination *)

Lemma oldest_id_cons m page : id (last page m) = oldest_id (m :: page).
Proof.
  unfold oldest_id, ids. revert m.
  induction page as [|a page IH]; intro m; [reflexivity|].
  rewrite last_cons_default, (IH a). cbn [map].
  now rewrite !last_cons_default.
Qed.

(** Pages that come back undisturbed are all taken; what is asked so far,
    with the anchor of the request to come, is the anchors of the pages. *)
Lemma collect_pages_prefix env app chat_id pages tail :
  Forall (fun p => p <> []) pages ->
  forall acc offset_id s,
  stop_flag (files s) = false ->
  exists s',
    collect env app chat_id (map (fun p => (FetchOk p, false)) pages ++ tail)
      acc offset_id s
    = collect env app chat_id tail (acc ++ List.concat pages)
        (last (map oldest_id pages) offset_id) s'
    /\ stop_flag (files s') = false
    /\ sent_lines (files s') = sent_lines (files s)
    /\ target s' = target s
    /\ requests s' ++ [last (map oldest_id pages) offset_id]
       = requests s ++ anchors offset_id pages.
Proof.
  intros Hne. induction Hne as [|p pages Hp Hne IH]; intros acc o s Hs.
  - exists s. cbn [map List.app List.concat last anchors].
    rewrite app_nil_r. repeat split; assumption.
  - destruct p as [|m p]; [congruence|].
    cbn [map List.app collect List.concat]. rewrite Hs.
    match goal with
    | |- context [collect _ _ _ _ ?a ?b ?c] =>
        destruct (IH a b c) as (s' & Hc & H1 & H2 & H3 & H4)
    end.
    + now autorewrite with frame.
    + exists s'. rewrite Hc. autorewrite with frame in H2, H3, H4.
      cbn [arrive_stop] in H2, H3, H4.
      autorewrite with frame in H2, H3, H4.
      rewrite oldest_id_cons in *.
      rewrite last_cons_default.
      split; [now rewrite <- app_assoc|].
      repeat split; try assumption.
      rewrite H4. unfold anchors. cbn [map]. now rewrite <- app_assoc.
Qed.

(** A job that nothing disturbs after its collection sends and logs all
    that was selected. *)
Lemma run_pipeline_after_collect env app chat_id start_id end_id s
    collected s2 :
  collect env app chat_id (history env) [] 0
    (update_status env Collecting app chat_id s) = (collected, s2) ->
  stop_flag (files s2) = false ->
  stop_at_ready env = false ->
  (forall i, stop_during env i = false) ->
  (forall i, transfer env i = None) ->
  let s' := run_pipeline env app chat_id start_id end_id s in
  let sel := range_filter start_id end_id (rev collected) in
  requests s' = requests s2
  /\ sent_lines (files s') = sent_lines (files s2) ++ ids sel
  /\ target s' = target s2 ++ flat_map delivery_of sel
  /\ current_status (worker s') = Completed (List.length sel) (List.length sel).
Proof.
  intros Hc H1 Hready Hstop Hxfer s' sel. subst s'.
  unfold run_pipeline. rewrite Hc. fold sel.
  set (s4 := arrive_stop (stop_at_ready env) _).
  assert (Hs4 : stop_flag (files s4) = false).
  { subst s4. autorewrite with frame. now rewrite Hready, H1. }
  pose proof (replicate_undisturbed env app chat_id (List.length sel)
                (Nat.max 1 (List.length sel / 10)) sel Hstop Hxfer 0%nat 0%nat
                s4 Hs4) as Hrep.
  destruct (replicate env app chat_id (List.length sel)
              (Nat.max 1 (List.length sel / 10)) sel 0 0 s4)
    as [processed s5].
  cbv zeta in Hrep. cbn [fst snd] in Hrep.
  destruct Hrep as (R1 & R2 & R3 & R4 & R5).
  unfold finalize. rewrite R2. cbn [fst snd].
  autorewrite with frame. cbn [worker with_worker set_is_cloning set_client
    current_status].
  autorewrite with frame.
  subst s4. autorewrite with frame in R3, R4, R5.
  rewrite R1, R3, R4, R5. repeat split.
Qed.

(** X13: With a platform that hands back all its pages and a run that nothing
    disturbs, the requests are anchored at 0 and then at the oldest id of
    each page received (one more request than pages, the last one coming
    back empty), and every selected message is sent and logged in
    ascending order of collection, the job ending as completed n/n. *)
Theorem undisturbed_job_clones_everything env app chat_id start_id end_id s
    pages :
  history env = map (fun p => (FetchOk p, false)) pages ->
  Forall (fun p => p <> []) pages ->
  stop_flag (files s) = false ->
  stop_at_ready env = false ->
  (forall i, stop_during env i = false) ->
  (forall i, transfer env i = None) ->
  let s' := run_pipeline env app chat_id start_id end_id s in
  let sel := range_filter start_id end_id (rev (List.concat pages)) in
  requests s' = requests s ++ anchors 0 pages
  /\ sent_lines (files s') = sent_lines (files s) ++ ids sel
  /\ target s' = target s ++ flat_map delivery_of sel
  /\ current_status (worker s') = Completed (List.length sel) (List.length sel).
Proof.
  intros Hh Hne Hs Hready Hstop Hxfer.
  destruct (collect_pages_prefix env app chat_id pages [] Hne [] 0
              (update_status env Collecting app chat_id s))
    as (s2 & Hc & H1 & H2 & H3 & H4).
  { now autorewrite with frame. }
  rewrite app_nil_r, <- Hh in Hc. cbn [collect List.app] in Hc.
  rewrite H1 in Hc.
  destruct (run_pipeline_after_collect env app chat_id start_id end_id s _ _
              Hc) as (R1 & R2 & R3 & R4); auto.
  cbv zeta. rewrite R1, R2, R3, R4.
  autorewrite with frame in *. rewrite H2, H3, H4. repeat split.
Qed.

Lemma undisturbed_job_clones_everything_witness :
  let s' := run_pipeline (calm [page_down 5 2; page_down 3 3]) true (Some 7)
              (Some 2) (Some 4) (start_state full_config None) in
  requests s' = [0; 4; 1]
  /\ sent_lines (files s') = [2; 3; 4]
  /\ current_status (worker s') = Completed 3 3.
Proof.
  intro s'.
  destruct (undisturbed_job_clones_everything
              (calm [page_down 5 2; page_down 3 3]) true (Some 7)
              (Some 2) (Some 4) (start_state full_config None)
              [page_down 5 2; page_down 3 3])
    as (H1 & H2 & _ & H4); try reflexivity.
  - repeat constructor; discriminate.
  - fold s' in H1, H2, H4. repeat split; assumption.
Defined.

(** X14: A history request that fails ends the collection but not the job: the
    pages received before it are kept, nothing further is requested, and
    the messages of those pages are selected, sent and logged as usual. *)
Theorem fetch_error_keeps_partial_result env app chat_id start_id end_id s
    pages e rest :
  history env
  = map (fun p => (FetchOk p, false)) pages ++ (FetchErr e, false) :: rest ->
  Forall (fun p => p <> []) pages ->
  stop_flag (files s) = false ->
  stop_at_ready env = false ->
  (forall i, stop_during env i = false) ->
  (forall i, transfer env i = None) ->
  let s' := run_pipeline env app chat_id start_id end_id s in
  let sel := range_filter start_id end_id (rev (List.concat pages)) in
  requests s' = requests s ++ anchors 0 pages
  /\ sent_lines (files s') = sent_lines (files s) ++ ids sel
  /\ target s' = target s ++ flat_map delivery_of sel
  /\ current_status (worker s') = Completed (List.length sel) (List.length sel).
Proof.
  intros Hh Hne Hs Hready Hstop Hxfer.
  destruct (collect_pages_prefix env app chat_id pages
              ((FetchErr e, false) :: rest) Hne [] 0
              (update_status env Collecting app chat_id s))
    as (s2 & Hc & H1 & H2 & H3 & H4).
  { now autorewrite with frame. }
  rewrite <- Hh in Hc. cbn [collect List.app] in Hc.
  rewrite H1 in Hc.
  destruct (run_pipeline_after_collect env app chat_id start_id end_id s _ _
              Hc) as (R1 & R2 & R3 & R4); auto.
  { autorewrite with frame. cbn [arrive_stop]. autorewrite with frame.
    exact H1. }
  cbv zeta. rewrite R1, R2, R3, R4.
  autorewrite with frame in *. cbn [arrive_stop].
  autorewrite with frame. rewrite H2, H3, H4. repeat split.
Qed.

Lemma fetch_error_keeps_partial_result_witness :
  let s' := run_pipeline breaks_on_second_fetch true (Some 7) None None
              (start_state full_config None) in
  requests s' = [0; 3]
  /\ sent_lines (files s') = [3; 4]
  /\ current_status (worker s') = Completed 2 2.
Proof.
  intro s'.
  destruct (fetch_error_keeps_partial_result breaks_on_second_fetch true
              (Some 7) None None (start_state full_config None)
              [page_down 4 2] "ServerError"%string
              [(FetchOk (page_down 2 2), false)])
    as (H1 & H2 & _ & H4); try reflexivity.
  - repeat constructor; discriminate.
  - fold s' in H1, H2, H4. repeat split; assumption.
Defined.

(** ** Notification failures do not steer the job *)

Lemma same_job_refl s : same_job s s.
Proof. unfold same_job. repeat split. Qed.

Ltac same_intro :=
  let H := fresh in
  intros H; unfold same_job in H;
  destruct H as (?Hw & ?Hsf & ?Hst & ?Hsl & ?Hfile & ?Hcfg & ?Htg & ?Hrq).

Ltac same_close :=
  unfold same_job; cbn; repeat split; congruence.

Section SameJob.

Variables (env : Env) (n : nat -> option Exn).
Variables (app : bool) (chat_id : option Z).

Lemma same_update_status msg s1 s2 :
  same_job s1 s2 ->
  same_job (update_status env msg app chat_id s1)
           (update_status (with_notify n env) msg app chat_id s2).
Proof.
  same_intro. unfold update_status, log_error, attempt_send.
  destruct chat_id as [c|]; [|same_close].
  destruct (app && truthy_int (Some c)); [|same_close].
  cbn [sends with_files with_worker notify with_notify now].
  destruct (notify env (sends s1)), (n (sends s2)); same_close.
Qed.

Lemma same_with_worker f s1 s2 :
  same_job s1 s2 -> same_job (with_worker f s1) (with_worker f s2).
Proof. same_intro. same_close. Qed.

Lemma same_set_stop_flag b s1 s2 :
  same_job s1 s2 ->
  same_job (with_files (set_stop_flag b) s1) (with_files (set_stop_flag b) s2).
Proof. same_intro. same_close. Qed.

Lemma same_append_sent i s1 s2 :
  same_job s1 s2 ->
  same_job (with_files (append_sent i) s1) (with_files (append_sent i) s2).
Proof.
  same_intro. unfold same_job. cbn. rewrite Hsl. repeat split; congruence.
Qed.

Lemma same_log_error entry s1 s2 :
  same_job s1 s2 ->
  same_job (log_error env entry s1) (log_error (with_notify n env) entry s2).
Proof. same_intro. unfold log_error. same_close. Qed.

Lemma same_record_request o s1 s2 :
  same_job s1 s2 -> same_job (record_request o s1) (record_request o s2).
Proof. same_intro. same_close. Qed.

Lemma same_deliver d s1 s2 :
  same_job s1 s2 -> same_job (deliver d s1) (deliver d s2).
Proof. same_intro. same_close. Qed.

Lemma same_arrive_stop req s1 s2 :
  same_job s1 s2 -> same_job (arrive_stop req s1) (arrive_stop req s2).
Proof.
  intros H. destruct req; [now apply same_set_stop_flag|exact H].
Qed.

Lemma same_report_collected acc s1 s2 :
  same_job s1 s2 ->
  same_job (report_collected env app chat_id acc s1)
           (report_collected (with_notify n env) app chat_id acc s2).
Proof.
  intros H. unfold report_collected.
  destruct (_ =? _)%nat; [now apply same_update_status|exact H].
Qed.

Lemma same_stop_flag s1 s2 :
  same_job s1 s2 -> stop_flag (files s1) = stop_flag (files s2).
Proof. now same_intro. Qed.

Lemma same_collect script :
  forall acc offset_id s1 s2,
  same_job s1 s2 ->
  fst (collect env app chat_id script acc offset_id s1)
  = fst (collect (with_notify n env) app chat_id script acc offset_id s2)
  /\ same_job (snd (collect env app chat_id script acc offset_id s1))
       (snd (collect (with_notify n env) app chat_id script acc offset_id s2)).
Proof.
  induction script as [|[r req] rest IH]; intros acc o s1 s2 H;
    cbn [collect]; rewrite <- (same_stop_flag s1 s2 H);
    destruct (stop_flag (files s1)).
  - split; [reflexivity|]. unfold collect_stop. cbn [snd].
    now apply same_update_status, same_set_stop_flag.
  - split; [reflexivity|]. cbn [snd]. now apply same_record_request.
  - split; [reflexivity|]. unfold collect_stop. cbn [snd].
    now apply same_update_status, same_set_stop_flag.
  - destruct r as [[|m page]|e]; cbn [fst snd].
    + split; [reflexivity|]. now apply same_arrive_stop, same_record_request.
    + apply IH.
      now apply same_report_collected, same_arrive_stop, same_record_request.
    + split; [reflexivity|].
      now apply same_update_status, same_arrive_stop, same_record_request.
Qed.

Lemma same_transfer_item i m s1 s2 :
  same_job s1 s2 ->
  match transfer_item env i m s1,
        transfer_item (with_notify n env) i m s2 with
  | inl e1, inl e2 => e1 = e2
  | inr t1, inr t2 => same_job t1 t2
  | _, _ => False
  end.
Proof.
  intros H. unfold transfer_item. cbn [transfer with_notify].
  destruct (media m).
  - destruct (transfer env i); [reflexivity|now apply same_deliver].
  - destruct (truthy_str (text_or_message m)); [|exact H].
    destruct (transfer env i); [reflexivity|now apply same_deliver].
Qed.

Lemma same_replicate total interval msgs :
  forall i processed s1 s2,
  same_job s1 s2 ->
  fst (replicate env app chat_id total interval msgs i processed s1)
  = fst (replicate (with_notify n env) app chat_id total interval msgs i
           processed s2)
  /\ same_job
       (snd (replicate env app chat_id total interval msgs i processed s1))
       (snd (replicate (with_notify n env) app chat_id total interval msgs i
               processed s2)).
Proof.
  induction msgs as [|m rest IH]; intros i processed s1 s2 H;
    cbn [replicate].
  - split; [reflexivity|exact H].
  - rewrite <- (same_stop_flag s1 s2 H). destruct (stop_flag (files s1)).
    + split; [reflexivity|]. cbn [snd].
      now apply same_set_stop_flag, same_update_status.
    + pose proof (same_transfer_item i m s1 s2 H) as Ht.
      destruct (transfer_item env i m s1) as [e1|t1],
               (transfer_item (with_notify n env) i m s2) as [e2|t2];
        try contradiction.
      * subst e2. apply IH. cbn [stop_during with_notify].
        now apply same_arrive_stop, same_update_status, same_log_error.
      * apply IH. cbn [stop_during with_notify].
        apply same_arrive_stop.
        destruct (_ || _)%bool;
          [apply same_update_status|];
          now apply same_with_worker, same_append_sent.
Qed.

Lemma same_finalize processed total s1 s2 :
  same_job s1 s2 ->
  same_job (finalize env app chat_id processed total s1)
           (finalize (with_notify n env) app chat_id processed total s2).
Proof.
  intros H. unfold finalize. rewrite <- (same_stop_flag s1 s2 H).
  destruct (stop_flag (files s1));
    apply same_with_worker, same_with_worker, same_update_status;
    [now apply same_set_stop_flag|exact H].
Qed.

Lemma same_run_pipeline start_id end_id s1 s2 :
  same_job s1 s2 ->
  same_job (run_pipeline env app chat_id start_id end_id s1)
           (run_pipeline (with_notify n env) app chat_id start_id end_id s2).
Proof.
  intros H. unfold run_pipeline. cbn [history stop_at_ready with_notify].
  destruct (same_collect (history env) [] 0
              (update_status env Collecting app chat_id s1)
              (update_status (with_notify n env) Collecting app chat_id s2))
    as [Hf Hs]; [now apply same_update_status|].
  destruct (collect env _ _ _ _ _ _) as [c1 t1],
           (collect (with_notify n env) _ _ _ _ _ _) as [c2 t2].
  cbn [fst snd] in Hf, Hs. subst c2.
  set (sel := range_filter start_id end_id (rev c1)).
  match goal with
  | |- context [replicate env ?a ?c ?t ?k ?l ?i ?p ?st1] =>
      match goal with
      | |- context [replicate (with_notify n env) _ _ _ _ _ _ _ ?st2] =>
          destruct (same_replicate t k l i p st1 st2) as [Hp Hr]
      end
  end.
  { now apply same_arrive_stop, same_update_status, same_with_worker. }
  destruct (replicate env _ _ _ _ _ _ _ _) as [p1 u1],
           (replicate (with_notify n env) _ _ _ _ _ _ _ _) as [p2 u2].
  cbn [fst snd] in Hp, Hr. subst p2. now apply same_finalize.
Qed.

End SameJob.

(** X15: Whether notifications get through or not makes no difference to the
    job: with any other outcomes of the notification deliveries, a clone
    request leaves the same worker state, markers, sent log, status
    snapshot, target channel and history requests.  Only the error log
    and the record of what the user received can differ. *)
Theorem notifications_do_not_steer env n app chat_id start_id end_id s :
  same_job (clone_messages env app chat_id start_id end_id s)
           (clone_messages (with_notify n env) app chat_id start_id end_id s).
Proof.
  unfold clone_messages, initialize_client.
  destruct (is_cloning (worker s)).
  - apply same_update_status, same_job_refl.
  - cbn [files with_worker].
    destruct (has_credentials (config (files s))); cbn [negb].
    + destruct (source_channel_id (config (files s))) as [src|];
        [destruct (target_channel_id (config (files s))) as [tgt|]|].
      * unfold get_entity. cbn [resolve with_notify].
        destruct (normalize_channel_id src) as [n1|];
          [destruct (resolve env n1)|];
          try (apply same_with_worker, same_update_status, same_job_refl).
        destruct (normalize_channel_id tgt) as [n2|];
          [destruct (resolve env n2)|];
          try (apply same_with_worker, same_update_status, same_job_refl).
        apply same_run_pipeline, same_job_refl.
      * apply same_with_worker, same_update_status, same_job_refl.
      * apply same_with_worker, same_update_status, same_job_refl.
    + apply same_with_worker, same_update_status, same_job_refl.
Qed.

(** ** More on the range filter *)

(** X16: With two non-zero bounds the filter keeps a message exactly when it is
    one of the input whose id lies between the bounds, both included. *)
Theorem range_filter_selects_in_range s e msgs m :
  s <> 0 -> e <> 0 ->
  In m (range_filter (Some s) (Some e) msgs)
  <-> In m msgs /\ s <= id m <= e.
Proof.
  intros Hs He. rewrite (range_filter_both_nonzero s e msgs Hs He).
  rewrite filter_In. unfold in_range. rewrite andb_true_iff, !Z.leb_le.
  tauto.
Qed.

Lemma range_filter_selects_in_range_witness :
  In (text_msg 3) (range_filter (Some 2) (Some 4) (rev (page_down 5 5)))
  <-> In (text_msg 3) (rev (page_down 5 5)) /\ 2 <= id (text_msg 3) <= 4.
Proof.
  apply (range_filter_selects_in_range 2 4 (rev (page_down 5 5)) (text_msg 3));
    lia.
Defined.

(** X17: The filter never reorders: a sequence in ascending order of id stays
    in ascending order, whatever the bounds. *)
Theorem range_filter_stays_ascending start_id end_id msgs :
  strictly_increasing (ids msgs) ->
  strictly_increasing (ids (range_filter start_id end_id msgs)).
Proof. apply range_filter_keeps_order. Qed.

Lemma range_filter_stays_ascending_witness :
  strictly_increasing
    (ids (range_filter (Some 2) (Some 4) (rev (page_down 5 5)))).
Proof.
  apply (range_filter_stays_ascending (Some 2) (Some 4) (rev (page_down 5 5))).
  simpl. repeat constructor.
Defined.

(** ** A Stop marker left over from before the job *)

(** X18: When the Stop marker is already there as the job starts to collect
    (a range clone does not remove it, a full clone and a resume do), the
    first poll consumes it before any history request: nothing is
    collected, sent or logged, and the job ends as completed with 0 of
    0. *)
Theorem stale_stop_empties_job env app chat_id start_id end_id s :
  stop_flag (files s) = true ->
  stop_at_ready env = false ->
  let s' := run_pipeline env app chat_id start_id end_id s in
  requests s' = requests s
  /\ target s' = target s
  /\ sent_log (files s') = sent_log (files s)
  /\ progress (worker s') = (0%nat, 0%nat)
  /\ current_status (worker s') = Completed 0 0.
Proof.
  intros Hs Hready s'. subst s'. unfold run_pipeline.
  rewrite collect_stopped by (now autorewrite with frame).
  assert (Hsel : range_filter start_id end_id (rev []) = []).
  { unfold range_filter. destruct start_id, end_id; try reflexivity.
    now destruct (_ && _). }
  cbn [fst snd]. rewrite Hsel. cbn [List.length replicate].
  unfold finalize. rewrite Hready. cbn [arrive_stop].
  autorewrite with frame. cbn [set_stop_flag stop_flag].
  cbn [worker with_worker set_client set_is_cloning progress current_status
       files target requests].
  autorewrite with frame. cbn [set_progress progress set_stop_flag sent_log].
  autorewrite with frame. repeat split.
Qed.

Lemma stale_stop_empties_job_witness :
  let s := with_files (set_stop_flag true) (start_state full_config None) in
  let s' := run_pipeline (calm [page_down 5 5]) true (Some 7) (Some 2)
              (Some 4) s in
  requests s' = [] /\ target s' = []
  /\ current_status (worker s') = Completed 0 0.
Proof.
  intros s s'.
  destruct (stale_stop_empties_job (calm [page_down 5 5]) true (Some 7)
              (Some 2) (Some 4) s) as (H1 & H2 & _ & _ & H5);
    try reflexivity.
  fold s' in H1, H2, H5. repeat split; assumption.
Defined.

(** ** Two evaluated runs *)

(** A job whose every notification fails: the two messages are sent and
    logged all the same, the user receives nothing, and each failed
    delivery leaves one line in the error log. *)
Lemma muted_job_run :
  let s' := clone_messages (muted (calm [page_down 2 2])) true (Some 7)
              None None (start_state full_config None) in
  sent_lines (files s') = [1; 2]
  /\ List.length (target s') = 2%nat
  /\ outbox s' = []
  /\ List.length (error_log (files s')) = 5%nat
  /\ current_status (worker s') = Completed 2 2.
Proof. vm_compute. repeat split. Qed.

(** A message with media, one with neither media nor text, and a text
    message: a file with its caption, nothing, and a text reach the target,
    and all three ids are logged. *)
Lemma mixed_items_run :
  let r := replicate (calm []) true (Some 7) 3 1
             [media_msg 1; empty_msg 2; text_msg 3] 0 0
             (start_state full_config None) in
  fst r = 3%nat
  /\ target (snd r) = [SentFile 1 "caption"; SentText "hello"]
  /\ sent_lines (files (snd r)) = [1; 2; 3].
Proof. vm_compute. repeat split. Qed.

(** ** What a resumed job does *)

(** Without an end id the bounds play no part in the job. *)
Lemma clone_messages_no_end env app chat_id start_id s :
  clone_messages env app chat_id start_id None s
  = clone_messages env app chat_id None None s.
Proof.
  unfold clone_messages, run_pipeline.
  destruct (is_cloning (worker s)); [reflexivity|].
  destruct (initialize_client _) as [ok s2].
  destruct (negb ok); [reflexivity|].
  destruct (source_channel_id _); [|reflexivity].
  destruct (target_channel_id _); [|reflexivity].
  destruct (get_entity env z); [reflexivity|].
  destruct (get_entity env z0); [reflexivity|].
  destruct (collect _ _ _ _ _ _ _) as [collected s3].
  now rewrite range_filter_no_end.
Qed.

(** An idle worker with credentials and two channels that resolve gets as
    far as the pipeline. *)
Lemma clone_messages_reaches_pipeline env app chat_id start_id end_id s
    src tgt n1 n2 :
  is_cloning (worker s) = false ->
  has_credentials (config (files s)) = true ->
  source_channel_id (config (files s)) = Some src ->
  target_channel_id (config (files s)) = Some tgt ->
  get_entity env src = inr n1 ->
  get_entity env tgt = inr n2 ->
  clone_messages env app chat_id start_id end_id s
  = run_pipeline env app chat_id start_id end_id
      (with_worker (set_client (Some true))
         (with_worker (set_is_cloning true) s)).
Proof.
  intros Hidle Hc Hsrc Htgt H1 H2. unfold clone_messages, initialize_client.
  rewrite Hidle. cbn [files with_worker]. rewrite Hc. cbn [negb].
  now rewrite Hsrc, Htgt, H1, H2.
Qed.

(** An undisturbed pipeline over pages that all come back. *)
Lemma run_pipeline_all_pages env app chat_id start_id end_id s pages :
  history env = map (fun p => (FetchOk p, false)) pages ->
  Forall (fun p => p <> []) pages ->
  stop_flag (files s) = false ->
  stop_at_ready env = false ->
  (forall i, stop_during env i = false) ->
  (forall i, transfer env i = None) ->
  let s' := run_pipeline env app chat_id start_id end_id s in
  let sel := range_filter start_id end_id (rev (List.concat pages)) in
  sent_lines (files s') = sent_lines (files s) ++ ids sel
  /\ target s' = target s ++ flat_map delivery_of sel
  /\ current_status (worker s') = Completed (List.length sel) (List.length sel).
Proof.
  intros Hh Hne Hs Hready Hstop Hxfer.
  destruct (collect_pages_prefix env app chat_id pages [] Hne [] 0
              (update_status env Collecting app chat_id s))
    as (s2 & Hc & H1 & H2 & H3 & _).
  { now autorewrite with frame. }
  rewrite app_nil_r, <- Hh in Hc. cbn [collect List.app] in Hc.
  rewrite H1 in Hc.
  destruct (run_pipeline_after_collect env app chat_id start_id end_id s _ _
              Hc) as (_ & R2 & R3 & R4); auto.
  cbv zeta. rewrite R2, R3, R4.
  autorewrite with frame in *. rewrite H2, H3. repeat split.
Qed.

(** C9: the task that resume creates carries the start id (last logged id
    plus one) and no end id, so the job it runs is the job with no bounds
    at all.  On a platform that hands back all its pages, in a run that
    nothing disturbs, every message collected is sent to the target and
    its id appended to the sent log, after the lines the log already held:
    no message is left out for having an id below the start id, those at
    or below the last logged id included. *)
Theorem resume_replicates_whole_history env chat s lines x pages
    src tgt n1 n2 :
  sent_log (files s) = Some (lines ++ [x]) ->
  is_cloning (worker s) = false ->
  has_credentials (config (files s)) = true ->
  source_channel_id (config (files s)) = Some src ->
  target_channel_id (config (files s)) = Some tgt ->
  get_entity env src = inr n1 ->
  get_entity env tgt = inr n2 ->
  history env = map (fun p => (FetchOk p, false)) pages ->
  Forall (fun p => p <> []) pages ->
  stop_at_ready env = false ->
  (forall i, stop_during env i = false) ->
  (forall i, transfer env i = None) ->
  let task := snd (resume_clone (files s)) in
  let started := with_files (fun _ => snd (fst (resume_clone (files s)))) s in
  let s' := run_launch env chat task started in
  let collected := rev (List.concat pages) in
  task = Some {| l_start_id := Some (x + 1); l_end_id := None |}
  /\ s' = clone_messages env true (Some chat) None None started
  /\ sent_lines (files s') = (lines ++ [x]) ++ ids collected
  /\ target s' = target s ++ flat_map delivery_of collected
  /\ current_status (worker s')
     = Completed (List.length collected) (List.length collected)
  /\ (forall m, In m collected -> id m < x + 1 ->
        In (id m) (skipn (List.length (lines ++ [x])) (sent_lines (files s')))
        /\ incl (delivery_of m)
                (skipn (List.length (target s)) (target s'))).
Proof.
  intros Hlog Hidle Hc Hsrc Htgt H1 H2 Hh Hne Hready Hstop Hxfer.
  cbv zeta. rewrite (resume_clone_last_line (files s) lines x Hlog).
  cbn [fst snd run_launch l_start_id l_end_id].
  set (started := with_files _ s).
  rewrite clone_messages_no_end.
  split; [reflexivity|]. split; [reflexivity|].
  rewrite (clone_messages_reaches_pipeline env true (Some chat) None None
             started src tgt n1 n2 Hidle Hc Hsrc Htgt H1 H2).
  destruct (run_pipeline_all_pages env true (Some chat) None None
              (with_worker (set_client (Some true))
                 (with_worker (set_is_cloning true) started)) pages
              Hh Hne eq_refl Hready Hstop Hxfer) as (R1 & R2 & R3).
  cbn [range_filter] in R1, R2, R3.
  assert (Hl : sent_lines (files (with_worker (set_client (Some true))
                 (with_worker (set_is_cloning true) started)))
               = lines ++ [x]).
  { subst started. unfold sent_lines. cbn. now rewrite Hlog. }
  rewrite Hl in R1. cbn [target with_worker with_files started] in R2.
  rewrite R1, R2, R3. repeat split.
  - rewrite skipn_app, skipn_all, Nat.sub_diag. cbn [skipn List.app].
    unfold ids. now apply in_map.
  - rewrite skipn_app, skipn_all, Nat.sub_diag. cbn [skipn List.app].
    intros d Hd. apply in_flat_map. now exists m.
Qed.

Lemma resume_replicates_whole_history_witness :
  let s := start_state full_config (Some [1; 2; 3]) in
  let env := calm [page_down 5 5] in
  let s' := run_launch env 7 (snd (resume_clone (files s)))
              (with_files (fun _ => snd (fst (resume_clone (files s)))) s) in
  snd (resume_clone (files s))
  = Some {| l_start_id := Some 4; l_end_id := None |}
  /\ sent_lines (files s') = [1; 2; 3; 1; 2; 3; 4; 5]
  /\ List.length (target s') = 5%nat.
Proof.
  intros s env s'.
  destruct (resume_replicates_whole_history env 7 s [1; 2] 3 [page_down 5 5]
              (-1001111) 2222 (-1001111) (-1002222))
    as (T1 & _ & T3 & T4 & _); try reflexivity.
  - repeat constructor; discriminate.
  - fold s' in T3, T4. split; [exact T1|]. split; [exact T3|].
    rewrite T4. reflexivity.
Defined.
